(** * NodeModal: editing a node of the document through its rows

    A verification development for
    [src/features/modals/NodeModal/index.tsx]: the helpers
    [normalizeNodeData] and [jsonPathToString], and the handlers of the
    [NodeModal] component ([handleEdit], [handleCancel], [handleChange],
    [setAtPath], [handleSave]).

    The component is TypeScript running on a JavaScript engine, so the first
    part of the file ([Module JS]) is a model of the fragment of the language
    runtime that the component relies on: IEEE binary64 numbers with
    [Number(text)] and number-to-text conversion, property reads and writes
    on JSON-shaped values in strict mode (the file is an ES module), and
    [JSON.stringify(v, null, 2)].

    Standing conventions of the runtime model:
    - a string is a sequence of code units below 256 (the Latin-1 subset of
      JavaScript strings): one [ascii] per code unit;
    - decimal text is rounded to the nearest number, ties to even, as
      engines do;
    - an object is the list of its own data properties in the order in which
      the language enumerates them (array indices in ascending order, then
      the other names in the order of their creation): the order shows in
      the text that [JSON.stringify] writes;
    - a value is modelled with its own properties only: the members that
      it inherits from the built-in prototypes ([constructor], [toString],
      the accessor [__proto__], ...) are not modelled. Their names are
      listed in [object_members] and [builtin_members], and every fact
      that reads a property which may be missing, or assigns under a name
      chosen by the data, is stated for names outside those lists (for an
      assignment into an object: for names other than [__proto__], the
      only inherited accessor);
    - the parsed document is a tree without sharing, so a reference into it
      is represented by the path that leads to it.

    The file store ([useFile]), the graph store ([useGraph]) and the format
    adapters ([contentToJson], [jsonToContent]) are other modules of the
    application: the stores are fields of the session state, and the
    adapters are parameters. *)

From Stdlib Require Import ZArith List String Ascii Bool Lia.
From Stdlib Require Import Floats.SpecFloat.
From Stdlib Require DecimalString.
Import ListNotations.
Open Scope list_scope.
Open Scope string_scope.

Module JS.

(** ** Numbers: IEEE 754 binary64 *)

Definition number : Type := spec_float.

Definition prec : Z := 53.
Definition emax : Z := 1024.

Definition NaN : number := S754_nan.
Definition Infinity (negative : bool) : number := S754_infinity negative.

(** The number nearest to the integer [z]. *)
Definition of_Z (z : Z) : number := binary_normalize prec emax z 0 false.
Definition of_nat (n : nat) : number := of_Z (Z.of_nat n).

(** The number nearest to [m * 10 ^ e10] for a non-negative [m]
    (round to nearest, ties to even), signed by [negative]. *)
Definition round_decimal (negative : bool) (m : Z) (e10 : Z) : number :=
  match m with
  | Z0 => S754_zero negative
  | Zneg _ => NaN
  | Zpos p =>
      if (0 <=? e10)%Z
      then binary_round prec emax negative (Z.to_pos (m * 10 ^ e10)) 0
      else
        let '(q, e, loc) :=
          SFdiv_core_binary prec emax m 0 (10 ^ (- e10)) 0 in
        binary_round_aux prec emax negative q e loc
  end.

Definition is_finite (x : number) : bool :=
  match x with
  | S754_zero _ | S754_finite _ _ _ => true
  | S754_infinity _ | S754_nan => false
  end.

Definition is_nan (x : number) : bool :=
  match x with S754_nan => true | _ => false end.

(** [x === y] on numbers: [NaN] differs from itself, the two zeros agree. *)
Definition number_eq (x y : number) : bool := SFeqb x y.

(** The integer a number denotes, when it denotes one. *)
Definition to_integer (x : number) : option Z :=
  match x with
  | S754_zero _ => Some 0%Z
  | S754_finite s m e =>
      let signed (z : Z) := if s then Z.opp z else z in
      if (0 <=? e)%Z then Some (signed (Z.pos m * 2 ^ e)%Z)
      else if (Z.pos m mod 2 ^ (- e) =? 0)%Z
           then Some (signed (Z.pos m / 2 ^ (- e))%Z)
           else None
  | _ => None
  end.

(** *** Text to number: [Number(text)] on a string (StringToNumber) *)

Definition is_white_space (c : ascii) : bool :=
  let n := nat_of_ascii c in
  (Nat.eqb n 9 || Nat.eqb n 10 || Nat.eqb n 11 || Nat.eqb n 12
   || Nat.eqb n 13 || Nat.eqb n 32 || Nat.eqb n 160)%bool.

Fixpoint trim_start (s : string) : string :=
  match s with
  | String c rest => if is_white_space c then trim_start rest else s
  | EmptyString => EmptyString
  end.

Fixpoint trim_end (s : string) : string :=
  match s with
  | EmptyString => EmptyString
  | String c rest =>
      match trim_end rest with
      | EmptyString => if is_white_space c then EmptyString else String c EmptyString
      | rest' => String c rest'
      end
  end.

Definition trim (s : string) : string := trim_end (trim_start s).

(** The value of a digit in the given radix. *)
Definition digit_value (radix : Z) (c : ascii) : option Z :=
  let n := Z.of_nat (nat_of_ascii c) in
  let v :=
    if ((48 <=? n) && (n <=? 57))%Z%bool then Some (n - 48)%Z
    else if ((97 <=? n) && (n <=? 102))%Z%bool then Some (n - 87)%Z
    else if ((65 <=? n) && (n <=? 70))%Z%bool then Some (n - 55)%Z
    else None in
  match v with
  | Some d => if (d <? radix)%Z then Some d else None
  | None => None
  end.

(** Reads the longest run of digits at the head of [s]: the accumulated
    value, the number of digits read and the rest of the text. *)
Fixpoint read_digits (radix : Z) (s : string) (acc : Z) (count : nat)
  : Z * nat * string :=
  match s with
  | String c rest =>
      match digit_value radix c with
      | Some d => read_digits radix rest (acc * radix + d)%Z (S count)
      | None => (acc, count, s)
      end
  | EmptyString => (acc, count, s)
  end.

(** ExponentPart, or nothing: the exponent and whether the text was well
    formed up to its end. *)
Definition read_exponent (s : string) : option Z :=
  match s with
  | EmptyString => Some 0%Z
  | String c rest =>
      if (Ascii.eqb c "e" || Ascii.eqb c "E")%bool then
        let '(negative, digits) :=
          match rest with
          | String "+" r => (false, r)
          | String "-" r => (true, r)
          | _ => (false, rest)
          end in
        match read_digits 10 digits 0 0 with
        | (_, O, _) => None
        | (e, _, EmptyString) => Some (if negative then (- e)%Z else e)
        | _ => None
        end
      else None
  end.

(** StrUnsignedDecimalLiteral. *)
Definition unsigned_decimal (negative : bool) (s : string) : number :=
  if String.eqb s "Infinity" then Infinity negative
  else
    let '(int_part, n_int, after_int) := read_digits 10 s 0 0 in
    let '(mantissa, n_frac, after_frac) :=
      match after_int with
      | String "." r => read_digits 10 r int_part 0
      | _ => (int_part, O, after_int)
      end in
    match (n_int + n_frac)%nat with
    | O => NaN
    | _ =>
        match read_exponent after_frac with
        | Some e => round_decimal negative mantissa (e - Z.of_nat n_frac)
        | None => NaN
        end
    end.

(** NonDecimalIntegerLiteral: [0x], [0o] and [0b] prefixes. *)
Definition non_decimal (radix : Z) (digits : string) : number :=
  match read_digits radix digits 0 0 with
  | (_, O, _) => NaN
  | (v, _, EmptyString) => of_Z v
  | _ => NaN
  end.

Definition StringToNumber (text : string) : number :=
  match trim text with
  | EmptyString => S754_zero false
  | String "0" (String "x" r) | String "0" (String "X" r) => non_decimal 16 r
  | String "0" (String "o" r) | String "0" (String "O" r) => non_decimal 8 r
  | String "0" (String "b" r) | String "0" (String "B" r) => non_decimal 2 r
  | String "+" r => unsigned_decimal false r
  | String "-" r => unsigned_decimal true r
  | s => unsigned_decimal false s
  end.

(** *** Number to text: [String(x)], string interpolation (Number::toString) *)

Definition decimal (n : Z) : string :=
  DecimalString.NilZero.string_of_uint (N.to_uint (Z.to_N n)).

Fixpoint zeros (n : nat) : string :=
  match n with
  | O => EmptyString
  | S n' => String "0" (zeros n')
  end.

(** The least [n], searched upwards from [n], with [num / den < 10 ^ n]. *)
Fixpoint magnitude_up (fuel : nat) (num den : Z) (n : Z) : Z :=
  match fuel with
  | O => n
  | S fuel' =>
      if (num <? den * 10 ^ n)%Z then n
      else magnitude_up fuel' num den (n + 1)%Z
  end.

(** The least [n], searched downwards from [n], with [10 ^ (n - 1) <= num / den]
    for a ratio below one and [n <= 0]. *)
Fixpoint magnitude_down (fuel : nat) (num den : Z) (n : Z) : Z :=
  match fuel with
  | O => n
  | S fuel' =>
      if (den <=? num * 10 ^ (1 - n))%Z then n
      else magnitude_down fuel' num den (n - 1)%Z
  end.

(** [n] with [10 ^ (n - 1) <= num / den < 10 ^ n]. *)
Definition magnitude (num den : Z) : Z :=
  if (den <=? num)%Z then magnitude_up 400 num den 1
  else magnitude_down 400 num den 0.

(** The candidates with [k] digits for the positive number [x = num / den]
    of magnitude [n]: the two integers around [x / 10 ^ (n - k)], the nearer
    one first (the even one on a tie). *)
Definition candidates (num den n : Z) (k : Z) : list Z :=
  let p := (k - n)%Z in
  let '(a, b) :=
    if (0 <=? p)%Z then ((num * 10 ^ p)%Z, den) else (num, (den * 10 ^ (- p))%Z) in
  let lo := (a / b)%Z in
  let r := (a mod b)%Z in
  match (2 * r ?= b)%Z with
  | Lt => [lo; (lo + 1)%Z]
  | Gt => [(lo + 1)%Z; lo]
  | Eq => if Z.even lo then [lo; (lo + 1)%Z] else [(lo + 1)%Z; lo]
  end.

(** The first candidate that has [k] digits and reads back as [x]. *)
Fixpoint first_exact (x : number) (n k : Z) (cs : list Z) : option (Z * Z) :=
  match cs with
  | [] => None
  | c :: rest =>
      if ((10 ^ (k - 1) <=? c) && (c <=? 10 ^ k))%Z%bool
         && number_eq (round_decimal false c (n - k)) x
      then Some (if (c =? 10 ^ k)%Z then ((10 ^ (k - 1))%Z, (n + 1)%Z) else (c, n))
      else first_exact x n k rest
  end.

(** The shortest digits: [(s, k, n)] with [s] of [k] digits, [k] least,
    such that [s * 10 ^ (n - k)] reads back as the positive number [x]. *)
Fixpoint shortest (fuel : nat) (x : number) (num den n : Z) (k : Z)
  : Z * Z * Z :=
  match fuel with
  | O => (0%Z, 1%Z, 1%Z)
  | S fuel' =>
      match first_exact x n k (candidates num den n k) with
      | Some (s, n') => (s, k, n')
      | None => shortest fuel' x num den n (k + 1)%Z
      end
  end.

Definition positive_to_string (m : positive) (e : Z) : string :=
  let '(num, den) :=
    if (0 <=? e)%Z then ((Z.pos m * 2 ^ e)%Z, 1%Z) else (Z.pos m, (2 ^ (- e))%Z) in
  let '(s, k, n) :=
    shortest 17 (S754_finite false m e) num den (magnitude num den) 1 in
  let digits := decimal s in
  let exponent (e : Z) :=
    ((if (0 <=? e)%Z then "e+" else "e-") ++ decimal (Z.abs e))%string in
  if ((k <=? n) && (n <=? 21))%Z%bool then
    digits ++ zeros (Z.to_nat (n - k))
  else if ((0 <? n) && (n <=? 21))%Z%bool then
    substring 0 (Z.to_nat n) digits ++ "."
      ++ substring (Z.to_nat n) (Z.to_nat (k - n)) digits
  else if ((-6 <? n) && (n <=? 0))%Z%bool then
    "0." ++ zeros (Z.to_nat (- n)) ++ digits
  else if (k =? 1)%Z then
    digits ++ exponent (n - 1)%Z
  else
    substring 0 1 digits ++ "."
      ++ substring 1 (Z.to_nat (k - 1)) digits ++ exponent (n - 1)%Z.

Definition NumberToString (x : number) : string :=
  match x with
  | S754_nan => "NaN"
  | S754_zero _ => "0"
  | S754_infinity false => "Infinity"
  | S754_infinity true => "-Infinity"
  | S754_finite false m e => positive_to_string m e
  | S754_finite true m e => "-" ++ positive_to_string m e
  end.

(** ** Values *)

Inductive prim : Type :=
| PUndefined
| PNull
| PBool (b : bool)
| PNumber (n : number)
| PString (s : string).

(** An array keeps its elements (a hole reads as [undefined]) and the named
    properties assigned to it besides; an object keeps its properties in
    the order in which the language enumerates them. *)
#[local] Unset Elimination Schemes.
Inductive value : Type :=
| VPrim (p : prim)
| VArray (elements : list value) (named : list (string * value))
| VObject (properties : list (string * value)).
#[local] Set Elimination Schemes.

Definition undefined : value := VPrim PUndefined.

Inductive error : Type :=
| TypeError
| RangeError
| Rejected (reason : string).

Definition result (A : Type) : Type := (error + A)%type.

Definition bind {A B : Type} (r : result A) (k : A -> result B) : result B :=
  match r with
  | inl e => inl e
  | inr a => k a
  end.

Definition prim_to_string (p : prim) : string :=
  match p with
  | PUndefined => "undefined"
  | PNull => "null"
  | PBool true => "true"
  | PBool false => "false"
  | PNumber n => NumberToString n
  | PString s => s
  end.

(** [String(v)], [`${v}`]. *)
Fixpoint ToString (v : value) : string :=
  match v with
  | VPrim p => prim_to_string p
  | VArray elements _ =>
      String.concat ","
        (map (fun e =>
                match e with
                | VPrim PUndefined | VPrim PNull => ""
                | _ => ToString e
                end) elements)
  | VObject _ => "[object Object]"
  end.

Definition ToNumber (v : value) : number :=
  match v with
  | VPrim PUndefined => NaN
  | VPrim PNull => S754_zero false
  | VPrim (PBool b) => if b then of_Z 1 else S754_zero false
  | VPrim (PNumber n) => n
  | VPrim (PString s) => StringToNumber s
  | VArray _ _ => StringToNumber (ToString v)
  | VObject _ => NaN
  end.

(** ** Properties *)

(** The array index a property name denotes: a canonical decimal numeral
    below [2 ^ 32 - 1]. *)
Definition array_index (name : string) : option N :=
  match read_digits 10 name 0 0 with
  | (v, S _, EmptyString) =>
      if (String.eqb name "0" || negb (String.eqb (substring 0 1 name) "0"))
         && (v <? 4294967295)%Z
      then Some (Z.to_N v) else None
  | _ => None
  end.

Fixpoint lookup (name : string) (props : list (string * value)) : option value :=
  match props with
  | [] => None
  | (k, v) :: rest => if String.eqb k name then Some v else lookup name rest
  end.

Fixpoint replace (name : string) (x : value) (props : list (string * value))
  : list (string * value) :=
  match props with
  | [] => []
  | (k, v) :: rest =>
      if String.eqb k name then (k, x) :: rest
      else (k, v) :: replace name x rest
  end.

(** A new property whose name is the array index [i] goes before the first
    property that is not an index or is a greater one. *)
Fixpoint insert_index (i : N) (name : string) (x : value)
  (props : list (string * value)) : list (string * value) :=
  match props with
  | [] => [(name, x)]
  | (k, v) :: rest =>
      match array_index k with
      | Some j =>
          if (i <? j)%N then (name, x) :: props
          else (k, v) :: insert_index i name x rest
      | None => (name, x) :: props
      end
  end.

(** [props[name] = x] on the own properties of an ordinary object: a
    property that exists keeps its place; a new one is created, among the
    indices in ascending order or after all the others in creation order.
    This is the assignment of every name but [__proto__], which an object
    without such a property of its own hands to the setter it inherits:
    the facts about assignments exclude that name. *)
Definition put (name : string) (x : value) (props : list (string * value))
  : list (string * value) :=
  match lookup name props with
  | Some _ => replace name x props
  | None =>
      match array_index name with
      | Some i => insert_index i name x props
      | None => (props ++ [(name, x)])%list
      end
  end.

(** [elements[i] = x]: writing past the end leaves holes. *)
Definition set_element (i : N) (x : value) (elements : list value) : list value :=
  if (i <? N.of_nat (List.length elements))%N
  then (firstn (N.to_nat i) elements ++ x :: skipn (S (N.to_nat i)) elements)%list
  else (elements ++ repeat undefined (N.to_nat i - List.length elements) ++ [x])%list.

(** [elements.length = n]. *)
Definition set_length (n : nat) (elements : list value) : list value :=
  (firstn n elements ++ repeat undefined (n - List.length elements))%list.

Definition string_length (s : string) : number := of_nat (String.length s).

(** [v[name]]: reading a property among the own properties of [v]. A name
    that [v] does not have reads as [undefined] here; in the language that
    holds for the names that [v] does not inherit either, and the facts
    about reading a missing property are stated for those. *)
Definition Get (v : value) (name : string) : result value :=
  match v with
  | VPrim PUndefined | VPrim PNull => inl TypeError
  | VPrim (PString s) =>
      match array_index name with
      | Some i =>
          if (i <? N.of_nat (String.length s))%N then
            match String.get (N.to_nat i) s with
            | Some c => inr (VPrim (PString (String c EmptyString)))
            | None => inr undefined
            end
          else inr undefined
      | None =>
          if String.eqb name "length" then inr (VPrim (PNumber (string_length s)))
          else inr undefined
      end
  | VPrim _ => inr undefined
  | VArray elements named =>
      match array_index name with
      | Some i =>
          if (i <? N.of_nat (List.length elements))%N
          then inr (nth (N.to_nat i) elements undefined)
          else inr undefined
      | None =>
          if String.eqb name "length"
          then inr (VPrim (PNumber (of_nat (List.length elements))))
          else inr (match lookup name named with Some x => x | None => undefined end)
      end
  | VObject props =>
      inr (match lookup name props with Some x => x | None => undefined end)
  end.

(** [v[name] = x] in strict mode: the value [v] after the assignment (for
    a [name] other than [__proto__], as for [put]). *)
Definition Set_ (v : value) (name : string) (x : value) : result value :=
  match v with
  | VPrim _ => inl TypeError
  | VArray elements named =>
      match array_index name with
      | Some i => inr (VArray (set_element i x elements) named)
      | None =>
          if String.eqb name "length" then
            match to_integer (ToNumber x) with
            | Some n =>
                if ((0 <=? n) && (n <? 4294967296))%Z%bool
                then inr (VArray (set_length (Z.to_nat n) elements) named)
                else inl RangeError
            | None => inl RangeError
            end
          else inr (VArray elements (put name x named))
      end
  | VObject props => inr (VObject (put name x props))
  end.

(** ** [JSON.stringify(v, null, 2)] *)

Definition hex_digit (n : nat) : ascii :=
  ascii_of_nat (if Nat.ltb n 10 then 48 + n else 87 + n).

Definition quote_char (c : ascii) : string :=
  let n := nat_of_ascii c in
  if Nat.eqb n 34 then "\" ++ String c EmptyString
  else if Nat.eqb n 92 then "\\"
  else if Nat.eqb n 8 then "\b"
  else if Nat.eqb n 9 then "\t"
  else if Nat.eqb n 10 then "\n"
  else if Nat.eqb n 12 then "\f"
  else if Nat.eqb n 13 then "\r"
  else if Nat.ltb n 32 then
    "\u00" ++ String (hex_digit (n / 16)) (String (hex_digit (n mod 16)) EmptyString)
  else String c EmptyString.

Fixpoint quote_chars (s : string) : string :=
  match s with
  | EmptyString => EmptyString
  | String c rest => quote_char c ++ quote_chars rest
  end.

Definition double_quote : string := String (ascii_of_nat 34) EmptyString.
Definition new_line : string := String (ascii_of_nat 10) EmptyString.

Definition QuoteJSONString (s : string) : string :=
  double_quote ++ quote_chars s ++ double_quote.

Definition is_undefined (v : value) : bool :=
  match v with VPrim PUndefined => true | _ => false end.

(** The text of a value at the given indentation. An [undefined] element of
    an array is written [null]; a property whose value is [undefined] is
    left out. *)
Fixpoint serialize (indent : string) (v : value) : string :=
  match v with
  | VPrim PUndefined => "null"
  | VPrim PNull => "null"
  | VPrim (PBool b) => if b then "true" else "false"
  | VPrim (PNumber n) => if is_finite n then NumberToString n else "null"
  | VPrim (PString s) => QuoteJSONString s
  | VArray elements _ =>
      let inner := indent ++ "  " in
      match elements with
      | [] => "[]"
      | _ =>
          "[" ++ new_line ++ inner
            ++ String.concat ("," ++ new_line ++ inner) (map (serialize inner) elements)
            ++ new_line ++ indent ++ "]"
      end
  | VObject props =>
      let inner := indent ++ "  " in
      let members :=
        flat_map (fun kv =>
                    if is_undefined (snd kv) then []
                    else [QuoteJSONString (fst kv) ++ ": " ++ serialize inner (snd kv)])
          props in
      match members with
      | [] => "{}"
      | _ =>
          "{" ++ new_line ++ inner
            ++ String.concat ("," ++ new_line ++ inner) members
            ++ new_line ++ indent ++ "}"
      end
  end.

(** [JSON.stringify(v, null, 2)]: [None] stands for the result [undefined]. *)
Definition JSON_stringify (v : value) : option string :=
  if is_undefined v then None else Some (serialize "" v).

End JS.

Notation "x <- r ;; k" := (JS.bind r (fun x => k))
  (at level 61, r at next level, right associativity).

(** * The data of the component *)

(** An element of [NodeData["path"]]: a property name or a number. *)
Inductive Segment : Type :=
| SegString (name : string)
| SegNumber (index : JS.number).

(** A row of [NodeData["text"]]: [{ key, value, type }]. *)
Record NodeRow : Type := mkRow {
  row_key : option string;
  row_value : JS.prim;
  row_type : string
}.

(** The selected node: [{ text, path? }]. *)
Record NodeData : Type := mkNode {
  text : list NodeRow;
  path : option (list Segment)
}.

(** An entry of the [fields] state: [{ key, value, type }]. *)
Record Field : Type := mkField {
  key : option string;
  value : string;
  type : string
}.

(** What the user is told: [console.error(err)], [toast.error(message)],
    [toast.success(message)]. *)
Inductive Notice : Type :=
| ConsoleError (err : JS.error)
| ToastError (message : string)
| ToastSuccess (message : string).

(** [if (key)] on a [string | null]: neither [null] nor the empty string. *)
Definition truthy (k : option string) : bool :=
  match k with
  | Some name => negb (String.eqb name "")
  | None => false
  end.

(** [type !== "array" && type !== "object"]. *)
Definition is_scalar_type (t : string) : bool :=
  negb (String.eqb t "array") && negb (String.eqb t "object").

(** The property name a path segment reads or writes. *)
Definition property_key (seg : Segment) : string :=
  match seg with
  | SegString name => name
  | SegNumber index => JS.NumberToString index
  end.

(** [typeof seg === "number"]. *)
Definition is_number (seg : Segment) : bool :=
  match seg with
  | SegNumber _ => true
  | SegString _ => false
  end.

(** * The helpers *)

(** The loop [nodeRows.forEach(row => { ... obj[row.key] = row.value ... })]
    of [normalizeNodeData], on the properties of [obj]. *)
Fixpoint collectRows (nodeRows : list NodeRow) (obj : list (string * JS.value))
  : list (string * JS.value) :=
  match nodeRows with
  | [] => obj
  | row :: rest =>
      collectRows rest
        (if is_scalar_type (row_type row) then
           match row_key row with
           | Some name =>
               if truthy (row_key row)
               then JS.put name (JS.VPrim (row_value row)) obj
               else obj
           | None => obj
           end
         else obj)
  end.

(** [normalizeNodeData]: the text shown for a node. [JSON.stringify] of an
    object is always a string. *)
Definition normalizeNodeData (nodeRows : list NodeRow) : string :=
  match nodeRows with
  | [] => "{}"
  | first :: others =>
      if Nat.eqb (List.length nodeRows) 1 && negb (truthy (row_key first))
      then JS.prim_to_string (row_value first)
      else JS.serialize "" (JS.VObject (collectRows nodeRows []))
  end.

(** [jsonPathToString]: the path in the format [$["customer"]]. *)
Definition jsonPathToString (path : option (list Segment)) : string :=
  match path with
  | None | Some [] => "$"
  | Some segs =>
      let segments :=
        map (fun seg =>
               match seg with
               | SegNumber index => JS.NumberToString index
               | SegString name => JS.double_quote ++ name ++ JS.double_quote
               end) segs in
      "$[" ++ String.concat "][" segments ++ "]"
  end.

(** The lines that turn the text of a field into the value to store
    ([let newVal = f.value; if (f.type === "number") ...]). *)
Definition coerce (f : Field) : JS.prim :=
  let newVal := JS.PString (value f) in
  let newVal :=
    if String.eqb (type f) "number"
    then JS.PNumber (JS.StringToNumber (value f)) else newVal in
  let newVal :=
    if String.eqb (type f) "boolean"
    then JS.PBool (String.eqb (value f) "true") else newVal in
  let newVal := if String.eqb (type f) "null" then JS.PNull else newVal in
  newVal.

(** [r => ({ key: r.key ?? null, value: String(r.value ?? ""), type: String(r.type) })]. *)
Definition fieldOfRow (r : NodeRow) : Field :=
  {| key := row_key r;
     value :=
       match row_value r with
       | JS.PUndefined | JS.PNull => ""
       | v => JS.prim_to_string v
       end;
     type := row_type r |}.

(** The loop [for (const seg of target) parent = parent[seg]]. *)
Fixpoint resolve (parent : JS.value) (target : list Segment) : JS.result JS.value :=
  match target with
  | [] => inr parent
  | seg :: rest =>
      child <- JS.Get parent (property_key seg) ;;
      resolve child rest
  end.

(** The value [holder] once the child read by [holder[name]] has become
    [child]: a child that is an object or an array is shared with its
    holder, so what is assigned into the child shows in the holder. *)
Definition with_child (holder : JS.value) (name : string) (child : JS.value)
  : JS.value :=
  match holder with
  | JS.VPrim _ => holder
  | JS.VArray elements named =>
      match JS.array_index name with
      | Some i =>
          if (i <? N.of_nat (List.length elements))%N
          then JS.VArray (JS.set_element i child elements) named
          else holder
      | None =>
          match JS.lookup name named with
          | Some _ => JS.VArray elements (JS.replace name child named)
          | None => holder
          end
      end
  | JS.VObject props =>
      match JS.lookup name props with
      | Some _ => JS.VObject (JS.replace name child props)
      | None => holder
      end
  end.

(** The document [root] once the value reached by [target] has become
    [changed]. *)
Fixpoint write_back (root : JS.value) (target : list Segment) (changed : JS.value)
  : JS.value :=
  match target with
  | [] => changed
  | seg :: rest =>
      match JS.Get root (property_key seg) with
      | inr child => with_child root (property_key seg) (write_back child rest changed)
      | inl _ => root
      end
  end.

(** The loop [fields.forEach(f => { if (f.key) { ...; parent[f.key] = newVal } })]. *)
Fixpoint assignFields (fields : list Field) (parent : JS.value) : JS.result JS.value :=
  match fields with
  | [] => inr parent
  | f :: rest =>
      match key f with
      | Some name =>
          if truthy (key f) then
            parent' <- JS.Set_ parent name (JS.VPrim (coerce f)) ;;
            assignFields rest parent'
          else assignFields rest parent
      | None => assignFields rest parent
      end
  end.

(** The loop of [setAtPath] and its last assignment, on a path that is not
    empty: [cur] after the assignments. *)
Fixpoint setAlong (cur : JS.value) (seg : Segment) (rest : list Segment)
  (newValue : JS.value) : JS.result JS.value :=
  match rest with
  | [] => JS.Set_ cur (property_key seg) newValue
  | next :: rest' =>
      child <- JS.Get cur (property_key seg) ;;
      cur <- (if JS.is_undefined child
              then JS.Set_ cur (property_key seg)
                     (if is_number next then JS.VArray [] [] else JS.VObject [])
              else inr cur) ;;
      child <- JS.Get cur (property_key seg) ;;
      child <- setAlong child next rest' newValue ;;
      inr (with_child cur (property_key seg) child)
  end.

(** [setAtPath(obj, path, value)]: the value returned and [obj] after the
    call. *)
Definition setAtPath (obj : JS.value) (path : list Segment) (newValue : JS.value)
  : JS.result (JS.value * JS.value) :=
  match path with
  | [] => inr (newValue, obj)
  | seg :: rest =>
      obj' <- setAlong obj seg rest newValue ;;
      inr (obj', obj')
  end.

(** * The component *)

Section NodeModal.

(** The file store and the format adapters are other modules of the
    application ([useFile], [jsonAdapter]): the format tag is theirs, and
    [contentToJson] and [jsonToContent] may reject. *)
Context {FileFormat : Type}.
Variable contentToJson : string -> FileFormat -> JS.result JS.value.
Variable jsonToContent : option string -> FileFormat -> JS.result string.

(** The selected node ([useGraph]), the contents and the format of the file
    ([useFile]), and the two pieces of state of the component. *)
Record State : Type := mkState {
  nodeData : option NodeData;
  contents : string;
  format : FileFormat;
  editing : bool;
  fields : list Field
}.

Definition rowsOf (node : option NodeData) : list NodeRow :=
  match node with
  | Some n => text n
  | None => []
  end.

(** The effect run when the modal opens or closes or the node changes. *)
Definition resetEffect (s : State) : State :=
  let rows := rowsOf (nodeData s) in
  let initial :=
    map fieldOfRow (filter (fun r => is_scalar_type (row_type r)) rows) in
  {| nodeData := nodeData s; contents := contents s; format := format s;
     editing := false; fields := initial |}.

(** A new node is selected: the effect runs. *)
Definition selectNode (node : option NodeData) (s : State) : State :=
  resetEffect
    {| nodeData := node; contents := contents s; format := format s;
       editing := editing s; fields := fields s |}.

Definition handleEdit (s : State) : State :=
  {| nodeData := nodeData s; contents := contents s; format := format s;
     editing := true; fields := fields s |}.


(** [prev.map((f, i) => (i === index ? { ...f, value } : f))], from
    position [i] on. *)
Fixpoint changeFrom (i : nat) (index : JS.number) (newText : string)
  (prev : list Field) : list Field :=
  match prev with
  | [] => []
  | f :: rest =>
      (if JS.number_eq (JS.of_nat i) index
       then {| key := key f; value := newText; type := type f |}
       else f) :: changeFrom (S i) index newText rest
  end.

Definition handleChange (index : JS.number) (newText : string) (s : State) : State :=
  {| nodeData := nodeData s; contents := contents s; format := format s;
     editing := editing s; fields := changeFrom 0 index newText (fields s) |}.

(** [nodeData.text.length > 1 || (nodeData.text.length === 1 && nodeData.text[0].key)]:
    the node shows the properties of an object. *)
Definition isObjectNode (node : NodeData) : bool :=
  Nat.ltb 1 (List.length (text node))
  || (Nat.eqb (List.length (text node)) 1
      && match text node with r :: _ => truthy (row_key r) | [] => false end).

(** The path of the node, empty when it has none
    ([nodeData.path && nodeData.path.length > 0 ? nodeData.path : []],
    [nodeData.path ?? []]). *)
Definition pathOf (node : NodeData) : list Segment :=
  match path node with
  | Some p => p
  | None => []
  end.

(** The edits of [handleSave] on the parsed document: the document after
    them. *)
Definition applyEdits (node : NodeData) (fields : list Field) (json : JS.value)
  : JS.result JS.value :=
  if isObjectNode node
  then
    let target := pathOf node in
    parent <- resolve json target ;;
    parent' <- assignFields fields parent ;;
    inr (write_back json target parent')
  else
    match fields with
    | [] => inl JS.TypeError
    | f :: _ =>
        let newVal := coerce f in
        r <- setAtPath json (pathOf node) (JS.VPrim newVal) ;;
        inr (snd r)
    end.

(** The body of the [try] block of [handleSave], up to the text handed to
    [setContents]. *)
Definition trySave (node : NodeData) (s : State) : JS.result string :=
  json <- contentToJson (contents s) (format s) ;;
  json' <- applyEdits node (fields s) json ;;
  jsonToContent (JS.JSON_stringify json') (format s).

Definition handleSave (s : State) : State * list Notice :=
  match nodeData s with
  | None => (s, [])
  | Some node =>
      match trySave node s with
      | inr contentStr =>
          ({| nodeData := nodeData s; contents := contentStr; format := format s;
              editing := false; fields := fields s |},
           [ToastSuccess "Saved changes"])
      | inl err => (s, [ConsoleError err; ToastError "Failed to save changes"])
      end
  end.

(** The user's actions on the open modal, and a run of them. *)
Inductive Action : Type :=
| Edit
| Change (index : JS.number) (newText : string)
| Save.

Definition act (s : State) (a : Action) : State :=
  match a with
  | Edit => handleEdit s
  | Change index newText => handleChange index newText s
  | Save => fst (handleSave s)
  end.

Definition run (actions : list Action) (s : State) : State :=
  fold_left act actions s.

(** A step of the [try] block of [handleSave] throws [err]: reading the
    text, resolving the path of an object node, assigning its fields,
    setting the value of a scalar node, or writing the text. *)
Inductive saveFails (node : NodeData) (s : State) (err : JS.error) : Prop :=
| ParseFails :
    contentToJson (contents s) (format s) = inl err ->
    saveFails node s err
| ResolveFails (json : JS.value) :
    contentToJson (contents s) (format s) = inr json ->
    isObjectNode node = true ->
    resolve json (pathOf node) = inl err ->
    saveFails node s err
| MergeFails (json parent : JS.value) :
    contentToJson (contents s) (format s) = inr json ->
    isObjectNode node = true ->
    resolve json (pathOf node) = inr parent ->
    assignFields (fields s) parent = inl err ->
    saveFails node s err
| NoFieldFails (json : JS.value) :
    contentToJson (contents s) (format s) = inr json ->
    isObjectNode node = false ->
    fields s = [] ->
    err = JS.TypeError ->
    saveFails node s err
| SetFails (json : JS.value) (f : Field) (others : list Field) :
    contentToJson (contents s) (format s) = inr json ->
    isObjectNode node = false ->
    fields s = f :: others ->
    setAtPath json (pathOf node) (JS.VPrim (coerce f)) = inl err ->
    saveFails node s err
| PrintFails (json json' : JS.value) :
    contentToJson (contents s) (format s) = inr json ->
    applyEdits node (fields s) json = inr json' ->
    jsonToContent (JS.JSON_stringify json') (format s) = inl err ->
    saveFails node s err.

End NodeModal.

Arguments State FileFormat : clear implicits.
Arguments mkState {FileFormat}.

(** * Statements of the specification, in its own words *)

(** The path formatter of the specification: [$] followed by each segment
    in brackets, a string segment quoted and a number segment bare. *)
Definition bracketed (seg : Segment) : string :=
  match seg with
  | SegString name => "[" ++ JS.double_quote ++ name ++ JS.double_quote ++ "]"
  | SegNumber index => "[" ++ JS.NumberToString index ++ "]"
  end.

Definition format_spec (p : list Segment) : string :=
  "$" ++ String.concat "" (map bracketed p).

(** The last field of the list that is assigned under [name]. *)
Fixpoint lastAssigned (name : string) (fs : list Field) : option Field :=
  match fs with
  | [] => None
  | f :: rest =>
      match lastAssigned name rest with
      | Some g => Some g
      | None =>
          match key f with
          | Some k => if truthy (key f) && String.eqb k name then Some f else None
          | None => None
          end
      end
  end.

(** * The scenario of the specification and its kin *)

Definition num (z : Z) : JS.value := JS.VPrim (JS.PNumber (JS.of_Z z)).
Definition str (s : string) : JS.value := JS.VPrim (JS.PString s).
Definition quoted (s : string) : string := JS.double_quote ++ s ++ JS.double_quote.

(** The document [{"customer": {"name": "Ann", "age": age}}]. *)
Definition customerDoc (age : JS.value) : JS.value :=
  JS.VObject [("customer", JS.VObject [("name", str "Ann"); ("age", age)])].

(** The node selected at the path [["customer"]]. *)
Definition customerNode : NodeData :=
  {| text := [ mkRow (Some "name") (JS.PString "Ann") "string";
               mkRow (Some "age") (JS.PNumber (JS.of_Z 30)) "number" ];
     path := Some [SegString "customer"] |}.

(** The text of the customer document on one line, and as
    [JSON.stringify(_, null, 2)] writes it. *)
Definition customerLine (age : string) : string :=
  "{" ++ quoted "customer" ++ ":{" ++ quoted "name" ++ ":" ++ quoted "Ann"
    ++ "," ++ quoted "age" ++ ":" ++ age ++ "}}".

Definition customerText (age : string) : string :=
  "{" ++ JS.new_line
    ++ "  " ++ quoted "customer" ++ ": {" ++ JS.new_line
    ++ "    " ++ quoted "name" ++ ": " ++ quoted "Ann" ++ "," ++ JS.new_line
    ++ "    " ++ quoted "age" ++ ": " ++ age ++ JS.new_line
    ++ "  }" ++ JS.new_line
    ++ "}".

(** An adapter for one format that reads the listed texts and rejects the
    others, and one that hands the JSON text on unchanged. *)
Definition readTexts (known : list (string * JS.value)) (content : string) (_ : unit)
  : JS.result JS.value :=
  match find (fun entry => String.eqb (fst entry) content) known with
  | Some entry => inr (snd entry)
  | None => inl (JS.Rejected "not a known text")
  end.

Definition writeText (json : option string) (_ : unit) : JS.result string :=
  match json with
  | Some t => inr t
  | None => inr ""
  end.

Definition customerTexts : list (string * JS.value) :=
  [ (customerLine "30", customerDoc (num 30));
    (customerText "30", customerDoc (num 30)) ].

(** The modal opened on a node, in edit mode, over a file with the given
    contents. *)
Definition editingSession {FileFormat : Type} (node : NodeData) (content : string)
  (fmt : FileFormat) : State FileFormat :=
  handleEdit
    (selectNode (Some node)
       {| nodeData := None; contents := content; format := fmt;
          editing := false; fields := [] |}).

(** A document that is the number 5 alone, and the node selected at its
    root. *)
Definition scalarNode : NodeData :=
  {| text := [mkRow None (JS.PNumber (JS.of_Z 5)) "number"]; path := Some [] |}.

Definition scalarTexts : list (string * JS.value) := [("5", num 5)].

(** The rows that [normalizeNodeData] shows as properties, and the property
    each one stands for. *)
Definition shown (r : NodeRow) : bool :=
  is_scalar_type (row_type r) && truthy (row_key r).

Definition rowName (r : NodeRow) : string :=
  match row_key r with
  | Some name => name
  | None => ""
  end.

Definition rowProperty (r : NodeRow) : string * JS.value :=
  (rowName r, JS.VPrim (row_value r)).

(** The text [JSON.stringify(_, null, 2)] writes for an object, one member
    per line, at the outer level. *)
Definition member (name text : string) : string := quoted name ++ ": " ++ text.

Definition objectText (members : list string) : string :=
  "{" ++ JS.new_line ++ "  "
    ++ String.concat ("," ++ JS.new_line ++ "  ") members
    ++ JS.new_line ++ "}".

(** The characters of the text of a finite number. *)
Definition numeric_char (c : ascii) : bool :=
  match JS.digit_value 10 c with
  | Some _ => true
  | None => Ascii.eqb c "." || Ascii.eqb c "e" || Ascii.eqb c "+" || Ascii.eqb c "-"
  end.

Fixpoint all_chars (p : ascii -> bool) (s : string) : bool :=
  match s with
  | EmptyString => true
  | String c rest => p c && all_chars p rest
  end.

(** A container in which the segment names no property yet: an object
    without the property, or a new array asked for a number segment. *)
Definition creatable (cur : JS.value) (seg : Segment) : Prop :=
  (exists props, cur = JS.VObject props /\ JS.lookup (property_key seg) props = None)
  \/ (cur = JS.VArray [] [] /\ is_number seg = true).

(** * Further notions *)

(** The field [f] with another text: [{ ...f, value }]. *)
Definition retext (newText : string) (f : Field) : Field :=
  {| key := key f; value := newText; type := type f |}.

(** An object or an array: a value that is held by reference. *)
Definition is_container (v : JS.value) : bool :=
  match v with
  | JS.VPrim _ => false
  | _ => true
  end.

(** The last row of the list that [normalizeNodeData] shows under [name]. *)
Fixpoint lastShown (name : string) (rows : list NodeRow) : option NodeRow :=
  match rows with
  | [] => None
  | r :: rest =>
      match lastShown name rest with
      | Some r' => Some r'
      | None => if shown r && String.eqb (rowName r) name then Some r else None
      end
  end.

(** The names of the members of [Object.prototype], which every object and
    array of a document inherits from, as ECMAScript 2024 (with its Annex B)
    defines them. Where an object has no own property of such a name,
    reading the name gives the inherited member instead of [undefined], and
    assigning under [__proto__], the only accessor among them, runs the
    inherited setter instead of creating a property. *)
Definition object_members : list string :=
  [ "constructor"; "hasOwnProperty"; "isPrototypeOf"; "propertyIsEnumerable";
    "toLocaleString"; "toString"; "valueOf"; "__proto__"; "__defineGetter__";
    "__defineSetter__"; "__lookupGetter__"; "__lookupSetter__" ].

(** The names of the members of all the built-in prototypes that the values
    of a document inherit from: [Object.prototype], then [Array.prototype],
    [String.prototype] and [Number.prototype] ([Boolean.prototype] adds no
    name of its own). *)
Definition builtin_members : list string :=
  (object_members
   ++ [ "at"; "concat"; "copyWithin"; "entries"; "every"; "fill"; "filter";
        "find"; "findIndex"; "findLast"; "findLastIndex"; "flat"; "flatMap";
        "forEach"; "includes"; "indexOf"; "join"; "keys"; "lastIndexOf"; "map";
        "pop"; "push"; "reduce"; "reduceRight"; "reverse"; "shift"; "slice";
        "some"; "sort"; "splice"; "toReversed"; "toSorted"; "toSpliced";
        "unshift"; "values"; "with" ]
   ++ [ "charAt"; "charCodeAt"; "codePointAt"; "endsWith"; "isWellFormed";
        "localeCompare"; "match"; "matchAll"; "normalize"; "padEnd"; "padStart";
        "repeat"; "replace"; "replaceAll"; "search"; "split"; "startsWith";
        "substring"; "toLocaleLowerCase"; "toLocaleUpperCase"; "toLowerCase";
        "toUpperCase"; "toWellFormed"; "trim"; "trimEnd"; "trimStart";
        "trimLeft"; "trimRight"; "substr"; "anchor"; "big"; "blink"; "bold";
        "fixed"; "fontcolor"; "fontsize"; "italics"; "link"; "small"; "strike";
        "sub"; "sup" ]
   ++ [ "toExponential"; "toFixed"; "toPrecision" ])%list.

Definition object_member (name : string) : bool :=
  existsb (String.eqb name) object_members.

Definition builtin_member (name : string) : bool :=
  existsb (String.eqb name) builtin_members.

(** A letter of the alphabet, in either case. *)
Definition is_letter (c : ascii) : bool :=
  let n := nat_of_ascii c in
  ((Nat.leb 97 n && Nat.leb n 122) || (Nat.leb 65 n && Nat.leb n 90))%bool.

(** A path none of whose segments names a member of a built-in prototype. *)
Definition plain_path (p : list Segment) : bool :=
  forallb (fun seg => negb (builtin_member (property_key seg))) p.

(** The way along [seg :: rest] is clear in [cur]: [cur] and every value
    that the segments before the last one read in turn is an object or an
    array, up to the first segment that reads [undefined] (from there on
    nothing exists yet). *)
Fixpoint clear_way (cur : JS.value) (seg : Segment) (rest : list Segment) : bool :=
  is_container cur
  && match rest with
     | [] => true
     | next :: rest' =>
         match JS.Get cur (property_key seg) with
         | inr child => JS.is_undefined child || clear_way child next rest'
         | inl _ => false
         end
     end.

(** * Facts about the runtime model *)

Lemma is_nan_eq (n : JS.number) : JS.is_nan n = true -> n = JS.NaN.
Proof. destruct n; simpl; intros H; try discriminate H; reflexivity. Qed.

Lemma trim_end_head (c : ascii) (rest : string) :
  JS.is_white_space c = false ->
  exists rest', JS.trim_end (String c rest) = String c rest'.
Proof.
  intros Hc. cbn [JS.trim_end]. rewrite Hc.
  destruct (JS.trim_end rest); eexists; reflexivity.
Qed.

(** A text of white space only reads as 0. *)
Lemma StringToNumber_blank (t : string) :
  all_chars JS.is_white_space t = true -> JS.StringToNumber t = JS.of_Z 0.
Proof.
  intros Hblank.
  assert (Htrim : JS.trim_start t = "").
  { induction t as [| c t IH]; [reflexivity |].
    cbn [all_chars] in Hblank. apply andb_prop in Hblank. destruct Hblank as [Hc Ht].
    cbn [JS.trim_start]. rewrite Hc. exact (IH Ht). }
  unfold JS.StringToNumber, JS.trim. rewrite Htrim. reflexivity.
Qed.

(** No numeric literal begins with a letter, [Infinity] apart. *)
Lemma StringToNumber_word (c : ascii) (rest : string) :
  is_letter c = true -> c <> "I"%char ->
  JS.StringToNumber (String c rest) = JS.NaN.
Proof.
  intros Hc HI.
  assert (Hw : JS.is_white_space c = false).
  { destruct c as [[] [] [] [] [] [] [] []]; try reflexivity; discriminate Hc. }
  unfold JS.StringToNumber, JS.trim. cbn [JS.trim_start]. rewrite Hw.
  destruct (trim_end_head c rest Hw) as [rest' ->].
  destruct c as [[] [] [] [] [] [] [] []]; try discriminate Hc;
    try (exfalso; apply HI; reflexivity); reflexivity.
Qed.

Lemma lookup_app (name : string) (ps qs : list (string * JS.value)) :
  JS.lookup name (ps ++ qs)%list =
  match JS.lookup name ps with
  | Some v => Some v
  | None => JS.lookup name qs
  end.
Proof.
  induction ps as [| [k v] ps IH]; simpl; [reflexivity |].
  destruct (String.eqb k name); [reflexivity | exact IH].
Qed.

Lemma lookup_replace_same (name : string) (x : JS.value) (ps : list (string * JS.value)) :
  JS.lookup name ps <> None -> JS.lookup name (JS.replace name x ps) = Some x.
Proof.
  induction ps as [| [k v] ps IH]; simpl; intros H; [congruence |].
  destruct (String.eqb k name) eqn:E; simpl; rewrite E; [reflexivity | auto].
Qed.

Lemma lookup_replace_other (name other : string) (x : JS.value)
  (ps : list (string * JS.value)) :
  name <> other -> JS.lookup other (JS.replace name x ps) = JS.lookup other ps.
Proof.
  intros Hne. induction ps as [| [k v] ps IH]; simpl; [reflexivity |].
  destruct (String.eqb k name) eqn:E; simpl.
  - apply String.eqb_eq in E. subst k.
    destruct (String.eqb name other) eqn:E'; [| reflexivity].
    apply String.eqb_eq in E'. contradiction.
  - destruct (String.eqb k other); [reflexivity | exact IH].
Qed.

Lemma lookup_insert_index_same (i : N) (name : string) (x : JS.value)
  (ps : list (string * JS.value)) :
  JS.lookup name ps = None ->
  JS.lookup name (JS.insert_index i name x ps) = Some x.
Proof.
  induction ps as [| [k v] ps IH]; simpl; intros H.
  - now rewrite String.eqb_refl.
  - destruct (String.eqb k name) eqn:E; [discriminate H |].
    destruct (JS.array_index k) as [j |]; [destruct (i <? j)%N |]; simpl;
      rewrite ?String.eqb_refl, ?E; auto.
Qed.

Lemma lookup_insert_index_other (i : N) (name other : string) (x : JS.value)
  (ps : list (string * JS.value)) :
  name <> other ->
  JS.lookup other (JS.insert_index i name x ps) = JS.lookup other ps.
Proof.
  intros Hne. apply String.eqb_neq in Hne.
  induction ps as [| [k v] ps IH]; simpl.
  - now rewrite Hne.
  - destruct (JS.array_index k) as [j |]; [destruct (i <? j)%N |]; simpl;
      rewrite ?Hne; try reflexivity.
    destruct (String.eqb k other); [reflexivity | exact IH].
Qed.

Lemma lookup_put_same (name : string) (x : JS.value) (ps : list (string * JS.value)) :
  JS.lookup name (JS.put name x ps) = Some x.
Proof.
  unfold JS.put. destruct (JS.lookup name ps) eqn:E.
  - apply lookup_replace_same. congruence.
  - destruct (JS.array_index name).
    + now apply lookup_insert_index_same.
    + rewrite lookup_app, E. simpl. now rewrite String.eqb_refl.
Qed.

Lemma lookup_put_other (name other : string) (x : JS.value)
  (ps : list (string * JS.value)) :
  name <> other -> JS.lookup other (JS.put name x ps) = JS.lookup other ps.
Proof.
  intros Hne. unfold JS.put. destruct (JS.lookup name ps).
  - now apply lookup_replace_other.
  - destruct (JS.array_index name).
    + now apply lookup_insert_index_other.
    + rewrite lookup_app. destruct (JS.lookup other ps); [reflexivity |].
      simpl. apply String.eqb_neq in Hne. now rewrite Hne.
Qed.

(** Replacing the value of a property that was just created is creating it
    with the other value. *)
Lemma replace_insert_index (i : N) (name : string) (x y : JS.value)
  (ps : list (string * JS.value)) :
  JS.lookup name ps = None ->
  JS.replace name y (JS.insert_index i name x ps) = JS.insert_index i name y ps.
Proof.
  induction ps as [| [k v] ps IH]; simpl; intros H.
  - now rewrite String.eqb_refl.
  - destruct (String.eqb k name) eqn:E; [discriminate H |].
    destruct (JS.array_index k) as [j |]; [destruct (i <? j)%N |]; simpl;
      rewrite ?String.eqb_refl, ?E; try reflexivity.
    now rewrite IH.
Qed.

Lemma replace_app_new (name : string) (x y : JS.value) (ps : list (string * JS.value)) :
  JS.lookup name ps = None ->
  JS.replace name y (ps ++ [(name, x)])%list = (ps ++ [(name, y)])%list.
Proof.
  induction ps as [| [k v] ps IH]; simpl; intros H.
  - now rewrite String.eqb_refl.
  - destruct (String.eqb k name) eqn:E; [discriminate H |]. now rewrite IH.
Qed.

Lemma replace_put_new (name : string) (x y : JS.value) (ps : list (string * JS.value)) :
  JS.lookup name ps = None ->
  JS.replace name y (JS.put name x ps) = JS.put name y ps.
Proof.
  intros H. unfold JS.put. rewrite H. destruct (JS.array_index name).
  - now apply replace_insert_index.
  - now apply replace_app_new.
Qed.

Lemma append_assoc (a b c : string) : (a ++ b) ++ c = a ++ (b ++ c).
Proof. induction a as [| ch a IH]; simpl; [reflexivity | now rewrite IH]. Qed.

Lemma concat_brackets (parts : list string) :
  parts <> [] ->
  "$[" ++ String.concat "][" parts ++ "]"
  = "$" ++ String.concat "" (map (fun p => "[" ++ p ++ "]") parts).
Proof.
  intros Hne. destruct parts as [| p parts]; [contradiction |]. clear Hne.
  change ("$[" ++ String.concat "][" (p :: parts) ++ "]")
    with (String "$" ("[" ++ String.concat "][" (p :: parts) ++ "]")).
  change ("$" ++ String.concat "" (map (fun p => "[" ++ p ++ "]") (p :: parts)))
    with (String "$" (String.concat "" (map (fun p => "[" ++ p ++ "]") (p :: parts)))).
  f_equal. revert p.
  induction parts as [| q parts IH]; intros p.
  - reflexivity.
  - change (String.concat "][" (p :: q :: parts))
      with (p ++ "][" ++ String.concat "][" (q :: parts)).
    change (String.concat "" (map (fun p => "[" ++ p ++ "]") (p :: q :: parts)))
      with (("[" ++ p ++ "]") ++ ""
              ++ String.concat "" (map (fun p => "[" ++ p ++ "]") (q :: parts))).
    rewrite <- IH. simpl.
    rewrite !append_assoc. reflexivity.
Qed.

Lemma all_chars_append (p : ascii -> bool) (a b : string) :
  all_chars p (a ++ b) = all_chars p a && all_chars p b.
Proof.
  induction a as [| c a IH]; simpl; [reflexivity |].
  now rewrite IH, Bool.andb_assoc.
Qed.

Lemma all_chars_substring (p : ascii -> bool) (s : string) :
  all_chars p s = true -> forall n m, all_chars p (substring n m s) = true.
Proof.
  induction s as [| c s IH]; intros H n m.
  - destruct n, m; reflexivity.
  - simpl in H. apply andb_prop in H. destruct H as [Hc Hs].
    destruct n as [| n]; destruct m as [| m]; simpl; auto.
    rewrite Hc. simpl. apply (IH Hs 0).
Qed.

Lemma all_chars_zeros (n : nat) : all_chars numeric_char (JS.zeros n) = true.
Proof. induction n; simpl; auto. Qed.

Lemma all_chars_uint (d : Decimal.uint) :
  all_chars numeric_char (DecimalString.NilEmpty.string_of_uint d) = true.
Proof. induction d; simpl; auto. Qed.

Lemma all_chars_decimal (z : Z) : all_chars numeric_char (JS.decimal z) = true.
Proof.
  unfold JS.decimal, DecimalString.NilZero.string_of_uint.
  destruct (N.to_uint (Z.to_N z)) as [| d | d | d | d | d | d | d | d | d | d];
    try reflexivity;
    match goal with
    | |- all_chars _ (DecimalString.NilEmpty.string_of_uint ?u) = true =>
        apply (all_chars_uint u)
    end.
Qed.

Lemma all_chars_positive (m : positive) (e : Z) :
  all_chars numeric_char (JS.positive_to_string m e) = true.
Proof.
  unfold JS.positive_to_string.
  destruct (if (0 <=? e)%Z then _ else _) as [num den].
  destruct (JS.shortest _ _ _ _ _ _) as [[s k] n].
  assert (Hd := all_chars_decimal s).
  repeat match goal with
         | |- context [if ?b then _ else _] => destruct b
         end;
    rewrite ?all_chars_append, ?all_chars_zeros, ?Hd, ?all_chars_decimal,
      ?(all_chars_substring _ _ Hd); reflexivity.
Qed.

Lemma NumberToString_not_length (n : JS.number) : JS.NumberToString n <> "length".
Proof.
  destruct n as [s | s | | s m e]; simpl; try discriminate.
  - destruct s; discriminate.
  - intros H.
    assert (Hall : all_chars numeric_char (JS.NumberToString (S754_finite s m e)) = true).
    { simpl. destruct s; [simpl |]; apply all_chars_positive. }
    simpl in Hall. rewrite H in Hall. discriminate Hall.
Qed.

(** * The text shown for a node and for its path *)

Lemma collectRows_appends (rows : list NodeRow) :
  forall obj : list (string * JS.value),
    NoDup (map rowName (filter shown rows)) ->
    (forall r, In r rows -> shown r = true ->
               JS.array_index (rowName r) = None /\ JS.lookup (rowName r) obj = None) ->
    collectRows rows obj = (obj ++ map rowProperty (filter shown rows))%list.
Proof.
  induction rows as [| row rows IH]; intros obj Hnd Hrows; simpl.
  - now rewrite app_nil_r.
  - simpl in Hnd.
    assert (Hrest : forall r, In r rows -> shown r = true -> JS.array_index (rowName r) = None /\ JS.lookup (rowName r) obj = None).
    { intros r Hin Hr. apply Hrows; [now right | exact Hr]. }
    destruct (shown row) eqn:Hshown.
    + destruct (Hrows row (or_introl eq_refl) Hshown) as [Hidx Hnew].
      unfold shown in Hshown. apply andb_prop in Hshown. destruct Hshown as [Hscalar Htruthy].
      rewrite Hscalar, Htruthy.
      destruct (row_key row) as [name |] eqn:Hkey; [| discriminate Htruthy].
      assert (Hname : rowName row = name) by (unfold rowName; now rewrite Hkey).
      rewrite Hname in Hidx, Hnew. simpl in Hnd. rewrite Hname in Hnd.
      inversion_clear Hnd as [| n names Hnotin Hnd'].
      rewrite IH; [| assumption |].
      * simpl. unfold JS.put. rewrite Hnew, Hidx, <- app_assoc. simpl.
        unfold rowProperty at 2. now rewrite Hname.
      * intros r Hin Hr. destruct (Hrest r Hin Hr) as [Hi Hl].
        split; [exact Hi |].
        unfold JS.put. rewrite Hnew, Hidx, lookup_app, Hl. simpl.
        destruct (String.eqb name (rowName r)) eqn:E; [| reflexivity].
        apply String.eqb_eq in E. exfalso. apply Hnotin. rewrite E.
        apply (in_map rowName). apply filter_In. now split.
    + replace (if is_scalar_type (row_type row)
               then match row_key row with
                    | Some name =>
                        if truthy (row_key row)
                        then JS.put name (JS.VPrim (row_value row)) obj
                        else obj
                    | None => obj
                    end
               else obj) with obj; [now apply IH |].
      unfold shown in Hshown.
      destruct (is_scalar_type (row_type row)); [| reflexivity].
      simpl in Hshown. rewrite Hshown. now destruct (row_key row).
Qed.

(** C5 (as the code has it): [normalizeNodeData] maps no row to the text
    [{}]; a single row whose key is null or empty to the text of its value;
    and any other list to the pretty JSON text of the object built by
    assigning, in row order, the value each scalar row with a non-empty key
    carries (as it is: a number only when the row holds a number). Rows with
    distinct keys that are not array indices keep their order. All of this
    for rows none of which is shown under the key [__proto__], the one name
    under which an assignment into a new object stores nothing. *)
Theorem normalizeNodeData_shows_row_values :
  normalizeNodeData [] = "{}"
  /\ (forall r, truthy (row_key r) = false ->
        normalizeNodeData [r] = JS.prim_to_string (row_value r))
  /\ (forall r rows, rows <> [] \/ truthy (row_key r) = true ->
        (forall row, In row (r :: rows) -> shown row = true ->
                     rowName row <> "__proto__") ->
        normalizeNodeData (r :: rows)
        = JS.serialize "" (JS.VObject (collectRows (r :: rows) [])))
  /\ (forall rows,
        NoDup (map rowName (filter shown rows)) ->
        (forall r, In r rows -> shown r = true ->
                   JS.array_index (rowName r) = None /\ rowName r <> "__proto__") ->
        collectRows rows [] = map rowProperty (filter shown rows))
  /\ normalizeNodeData
       [ mkRow (Some "a") (JS.PNumber (JS.of_Z 1)) "number";
         mkRow (Some "b") (JS.PString "x") "string" ]
     = objectText [member "a" "1"; member "b" (quoted "x")].
Proof.
  split; [reflexivity |].
  split.
  { intros r Hkey. unfold normalizeNodeData. simpl. now rewrite Hkey. }
  split.
  { intros r rows [Hrows | Hkey] _; unfold normalizeNodeData.
    - destruct rows as [| r' rows]; [contradiction | reflexivity].
    - rewrite Hkey. simpl. now rewrite Bool.andb_false_r. }
  split.
  { intros rows Hnd Hidx.
    rewrite collectRows_appends; [reflexivity | assumption |].
    intros r Hin Hr. split; [now apply (Hidx r) | reflexivity]. }
  vm_compute. reflexivity.
Qed.

Lemma normalizeNodeData_shows_row_values_witness :
  normalizeNodeData [mkRow None (JS.PNumber (JS.of_Z 5)) "number"] = "5"
  /\ normalizeNodeData
       [ mkRow (Some "name") (JS.PString "Ann") "string";
         mkRow (Some "age") (JS.PNumber (JS.of_Z 30)) "number" ]
     = JS.serialize ""
         (JS.VObject
            (collectRows
               [ mkRow (Some "name") (JS.PString "Ann") "string";
                 mkRow (Some "age") (JS.PNumber (JS.of_Z 30)) "number" ] []))
  /\ collectRows
       [ mkRow (Some "b") (JS.PString "x") "string";
         mkRow (Some "tags") JS.PUndefined "array";
         mkRow (Some "a") (JS.PNumber (JS.of_Z 1)) "number" ] []
     = [("b", str "x"); ("a", num 1)].
Proof.
  destruct normalizeNodeData_shows_row_values as (_ & Hone & Hmany & Hkeep & _).
  split; [| split].
  - apply (Hone (mkRow None (JS.PNumber (JS.of_Z 5)) "number")). reflexivity.
  - apply (Hmany (mkRow (Some "name") (JS.PString "Ann") "string")
             [mkRow (Some "age") (JS.PNumber (JS.of_Z 30)) "number"]).
    + left. discriminate.
    + intros row [<- | [<- | []]] _ E; vm_compute in E; discriminate E.
  - apply (Hkeep [ mkRow (Some "b") (JS.PString "x") "string";
                   mkRow (Some "tags") JS.PUndefined "array";
                   mkRow (Some "a") (JS.PNumber (JS.of_Z 1)) "number" ]).
    + simpl. repeat constructor; simpl; intuition discriminate.
    + intros r [<- | [<- | [<- | []]]] Hs; vm_compute in Hs; try discriminate Hs;
        (split; [reflexivity | intros E; vm_compute in E; discriminate E]).
Defined.

(** C5 (as stated) fails on the code: a row of type number whose value is
    the text [1] is shown as the string ["1"], not coerced to a number; a
    key that is an array index is listed before the keys that came first;
    and a single row whose key is the empty string is shown as its bare
    value, not as an object. *)
Lemma normalizeNodeData_counterexample :
  normalizeNodeData
    [ mkRow (Some "a") (JS.PString "1") "number";
      mkRow (Some "b") (JS.PString "x") "string" ]
  = objectText [member "a" (quoted "1"); member "b" (quoted "x")]
  /\ normalizeNodeData
       [ mkRow (Some "a") (JS.PString "1") "number";
         mkRow (Some "b") (JS.PString "x") "string" ]
     <> objectText [member "a" "1"; member "b" (quoted "x")]
  /\ normalizeNodeData
       [ mkRow (Some "b") (JS.PString "x") "string";
         mkRow (Some "1") (JS.PString "y") "string" ]
     = objectText [member "1" (quoted "y"); member "b" (quoted "x")]
  /\ normalizeNodeData [mkRow (Some "") (JS.PNumber (JS.of_Z 5)) "number"] = "5".
Proof.
  repeat split; try (vm_compute; reflexivity).
  vm_compute. discriminate.
Qed.

Lemma bracketed_text (seg : Segment) :
  bracketed seg
  = "[" ++ match seg with
           | SegNumber index => JS.NumberToString index
           | SegString name => JS.double_quote ++ name ++ JS.double_quote
           end ++ "]".
Proof. destruct seg; unfold bracketed; now rewrite ?append_assoc. Qed.

(** C6: the path formatter is total, with no failure case: it maps a
    missing or empty path to [$], and any path to [$] followed by each
    segment in order in brackets, a string segment quoted and a number
    segment bare; the path [["a", 2, "b"]] is written [$["a"][2]["b"]]. *)
Theorem jsonPathToString_format :
  jsonPathToString None = "$"
  /\ jsonPathToString (Some []) = "$"
  /\ (forall p : list Segment, jsonPathToString (Some p) = format_spec p)
  /\ jsonPathToString (Some [SegString "a"; SegNumber (JS.of_Z 2); SegString "b"])
     = "$[" ++ quoted "a" ++ "][2][" ++ quoted "b" ++ "]".
Proof.
  split; [reflexivity |]. split; [reflexivity |]. split.
  - intros p. unfold format_spec. destruct p as [| seg p]; [reflexivity |].
    unfold jsonPathToString. rewrite concat_brackets by discriminate.
    rewrite map_map. f_equal. f_equal. apply map_ext. intros s.
    symmetry. apply bracketed_text.
  - vm_compute. reflexivity.
Qed.

(** * Resolving a path *)

Lemma Get_fails (v : JS.value) (name : string) (e : JS.error) :
  JS.Get v name = inl e ->
  e = JS.TypeError /\ (v = JS.undefined \/ v = JS.VPrim JS.PNull).
Proof.
  destruct v as [[| | b | n | t] | elements named | props]; simpl; intros H;
    try (injection H as <-; auto); try discriminate H.
  - destruct (JS.array_index name) as [i |].
    + destruct (i <? N.of_nat (String.length t))%N; [| discriminate H].
      destruct (String.get (N.to_nat i) t); discriminate H.
    + destruct (String.eqb name "length"); discriminate H.
  - destruct (JS.array_index name) as [i |].
    + destruct (i <? N.of_nat (List.length elements))%N; discriminate H.
    + destruct (String.eqb name "length"); discriminate H.
Qed.

Lemma resolve_app (json : JS.value) (p q : list Segment) :
  resolve json (p ++ q)%list = (v <- resolve json p ;; resolve v q).
Proof.
  revert json. induction p as [| seg p IH]; intros json; simpl; [reflexivity |].
  destruct (JS.Get json (property_key seg)) as [e | child]; simpl; [reflexivity | apply IH].
Qed.

Lemma resolve_fails (p : list Segment) :
  forall (json : JS.value) (e : JS.error),
    resolve json p = inl e ->
    e = JS.TypeError
    /\ exists p1 seg p2,
         p = (p1 ++ seg :: p2)%list
         /\ (resolve json p1 = inr JS.undefined
             \/ resolve json p1 = inr (JS.VPrim JS.PNull)).
Proof.
  induction p as [| seg p IH]; intros json e H; simpl in H; [discriminate H |].
  destruct (JS.Get json (property_key seg)) as [e' | child] eqn:HGet; simpl in H.
  - injection H as <-. destruct (Get_fails _ _ _ HGet) as [-> Hnull].
    split; [reflexivity |]. exists [], seg, p. split; [reflexivity |].
    destruct Hnull as [-> | ->]; auto.
  - destruct (IH child e H) as [-> (p1 & seg' & p2 & -> & Hp1)].
    split; [reflexivity |]. exists (seg :: p1), seg', p2. split; [reflexivity |].
    simpl. rewrite HGet. exact Hp1.
Qed.

Lemma nth_after_holes (n : nat) (x : JS.value) :
  nth n (repeat JS.undefined n ++ [x])%list JS.undefined = x.
Proof.
  rewrite app_nth2; rewrite repeat_length; [| lia]. now rewrite Nat.sub_diag.
Qed.

Lemma replace_after_holes (n : nat) (x y : JS.value) :
  (firstn n (repeat JS.undefined n ++ [x]) ++ y :: skipn (S n) (repeat JS.undefined n ++ [x]))%list
  = (repeat JS.undefined n ++ [y])%list.
Proof.
  induction n as [| n IH]; [reflexivity |].
  change (repeat JS.undefined (S n)) with (JS.undefined :: repeat JS.undefined n).
  cbn [app firstn skipn]. f_equal. exact IH.
Qed.

Lemma set_element_last (i : N) (x y : JS.value) :
  JS.set_element i y (repeat JS.undefined (N.to_nat i) ++ [x])%list
  = (repeat JS.undefined (N.to_nat i) ++ [y])%list.
Proof.
  unfold JS.set_element. rewrite length_app, repeat_length.
  replace (i <? N.of_nat (N.to_nat i + List.length [x]))%N with true
    by (symmetry; apply N.ltb_lt; simpl; lia).
  apply replace_after_holes.
Qed.

Lemma creatable_slot (cur : JS.value) (seg : Segment) :
  creatable cur seg ->
  JS.Get cur (property_key seg) = inr JS.undefined
  /\ forall x, exists cur1,
       JS.Set_ cur (property_key seg) x = inr cur1
       /\ JS.Get cur1 (property_key seg) = inr x
       /\ forall y, JS.Set_ cur (property_key seg) y
                    = inr (with_child cur1 (property_key seg) y).
Proof.
  intros [(props & -> & Hnew) | [-> Hnum]].
  - split; [simpl; now rewrite Hnew |].
    intros x. exists (JS.VObject (JS.put (property_key seg) x props)).
    split; [reflexivity |]. split; [simpl; now rewrite lookup_put_same |].
    intros y. simpl. rewrite lookup_put_same. now rewrite replace_put_new.
  - destruct seg as [name | index]; [discriminate Hnum |].
    assert (Hlen := NumberToString_not_length index). apply String.eqb_neq in Hlen.
    cbn [property_key]. unfold JS.Get, JS.Set_, with_child.
    destruct (JS.array_index (JS.NumberToString index)) as [i |] eqn:Hidx.
    + assert (Hempty : (i <? N.of_nat (@List.length JS.value []))%N = false)
        by (apply N.ltb_ge; simpl; lia).
      split; [now rewrite Hempty |].
      intros x.
      exists (JS.VArray (JS.set_element i x []) []).
      split; [reflexivity |].
      assert (Hset : forall z, JS.set_element i z []
                               = (repeat JS.undefined (N.to_nat i) ++ [z])%list).
      { intros z. unfold JS.set_element. rewrite Hempty. cbn [List.length app].
        now rewrite Nat.sub_0_r. }
      rewrite Hset.
      assert (Hlt : (i <? N.of_nat (List.length (repeat JS.undefined (N.to_nat i) ++ [x])%list))%N
                    = true).
      { apply N.ltb_lt. rewrite length_app, repeat_length. simpl. lia. }
      rewrite Hlt. split; [now rewrite nth_after_holes |].
      intros y. now rewrite Hset, set_element_last.
    + rewrite Hlen. split; [reflexivity |]. intros x.
      exists (JS.VArray [] (JS.put (JS.NumberToString index) x [])).
      split; [reflexivity |]. rewrite ?Hidx, ?Hlen.
      split; [now rewrite lookup_put_same |].
      intros y. rewrite lookup_put_same. now rewrite replace_put_new.
Qed.

Lemma setAlong_creates (rest : list Segment) :
  forall (cur : JS.value) (seg : Segment) (v : JS.value),
    creatable cur seg ->
    exists c cur',
      setAlong cur seg rest v = inr cur'
      /\ JS.Set_ cur (property_key seg) c = inr cur'
      /\ JS.Get cur' (property_key seg) = inr c
      /\ resolve c rest = inr v
      /\ match rest with
         | [] => c = v
         | next :: _ =>
             exists c0,
               JS.Set_ (if is_number next then JS.VArray [] [] else JS.VObject [])
                 (property_key next) c0 = inr c
         end.
Proof.
  induction rest as [| next rest IH]; intros cur seg v Hcur;
    destruct (creatable_slot cur seg Hcur) as [Hget Hset].
  - destruct (Hset v) as (cur1 & Hs & Hg & _). exists v, cur1. auto.
  - set (fresh := if is_number next then JS.VArray [] [] else JS.VObject []).
    assert (Hfresh : creatable fresh next).
    { unfold fresh. destruct (is_number next) eqn:E; [right; auto |].
      left. exists []. auto. }
    destruct (Hset fresh) as (cur1 & Hs & Hg & Hw).
    destruct (IH fresh next v Hfresh) as (c0 & child & Halong & Hmade & Hgc & Hres & _).
    exists child, (with_child cur1 (property_key seg) child).
    assert (Hfinal := Hw child).
    destruct (Hset child) as (cur2 & Hs2 & Hg2 & _).
    assert (Hcur2 : with_child cur1 (property_key seg) child = cur2) by congruence.
    split.
    + cbn [setAlong]. rewrite Hget. cbn [JS.bind JS.is_undefined JS.undefined].
      fold fresh. rewrite Hs. cbn [JS.bind]. rewrite Hg. cbn [JS.bind].
      rewrite Halong. reflexivity.
    + split; [exact Hfinal |]. rewrite Hcur2. split; [exact Hg2 |].
      split; [cbn [resolve]; rewrite Hgc; exact Hres |].
      exists c0. exact Hmade.
Qed.

(** * Merging the fields *)

Lemma coerce_number (f : Field) :
  type f = "number" -> coerce f = JS.PNumber (JS.StringToNumber (value f)).
Proof. intros H. unfold coerce. rewrite H. reflexivity. Qed.

Lemma assignFields_object (fs : list Field) :
  forall props : list (string * JS.value),
  exists props',
    assignFields fs (JS.VObject props) = inr (JS.VObject props')
    /\ forall name,
         JS.lookup name props'
         = match lastAssigned name fs with
           | Some f => Some (JS.VPrim (coerce f))
           | None => JS.lookup name props
           end.
Proof.
  induction fs as [| f fs IH]; intros props.
  - exists props. split; reflexivity.
  - cbn [assignFields lastAssigned].
    destruct (key f) as [k |] eqn:Hkey.
    + destruct (truthy (Some k)) eqn:Htruthy; cbn [JS.Set_ JS.bind andb].
      * destruct (IH (JS.put k (JS.VPrim (coerce f)) props)) as (props' & Hassign & Hlook).
        exists props'. split; [exact Hassign |].
        intros name. rewrite Hlook.
        destruct (lastAssigned name fs); [reflexivity |].
        destruct (String.eqb k name) eqn:E.
        -- apply String.eqb_eq in E. subst. apply lookup_put_same.
        -- apply String.eqb_neq in E. now apply lookup_put_other.
      * destruct (IH props) as (props' & Hassign & Hlook).
        exists props'. split; [exact Hassign |].
        intros name. rewrite Hlook. now destruct (lastAssigned name fs).
    + destruct (IH props) as (props' & Hassign & Hlook).
      exists props'. split; [exact Hassign |].
      intros name. rewrite Hlook. now destruct (lastAssigned name fs).
Qed.

Lemma lastAssigned_sound (name : string) (fs : list Field) (f : Field) :
  lastAssigned name fs = Some f -> In f fs /\ key f = Some name /\ name <> "".
Proof.
  induction fs as [| g fs IH]; simpl; [discriminate |].
  destruct (lastAssigned name fs) as [h |].
  - intros H. injection H as <-. destruct (IH eq_refl) as (Hin & Hk & Hn). auto.
  - destruct (key g) as [k |] eqn:Hkey; [| discriminate].
    destruct (truthy (Some k) && String.eqb k name) eqn:E; [| discriminate].
    intros H. injection H as <-. apply andb_prop in E. destruct E as [Ht Ek].
    apply String.eqb_eq in Ek. subst k. split; [now left |]. split; [exact Hkey |].
    simpl in Ht. intros ->. discriminate Ht.
Qed.

Lemma lastAssigned_complete (name : string) (fs : list Field) (f : Field) :
  In f fs -> key f = Some name -> name <> "" -> lastAssigned name fs <> None.
Proof.
  intros Hin Hkey Hname. induction fs as [| g fs IH]; simpl; [contradiction |].
  destruct Hin as [-> | Hin].
  - destruct (lastAssigned name fs); [discriminate |].
    rewrite Hkey. simpl. rewrite String.eqb_refl.
    apply String.eqb_neq in Hname. rewrite Hname. discriminate.
  - specialize (IH Hin). destruct (lastAssigned name fs); [discriminate | contradiction].
Qed.

(** C7 (as the code has it): during the merge every field with a key that
    is neither null nor empty is coerced by its type and assigned into the
    target: type number gives [Number(text)], type boolean gives [true]
    exactly when the text is [true], type null gives [null], and any other
    type gives the text itself. On an object the merge cannot fail, and
    afterwards each name other than [__proto__] holds the coerced value of
    the last field assigned under it, or what it held before when there is
    none. (Under [__proto__] an object that has no such property of its own
    stores nothing: the assignment runs the inherited setter.) *)
Theorem assignFields_coerces_keyed_fields :
  (forall f, type f = "number" ->
             coerce f = JS.PNumber (JS.StringToNumber (value f)))
  /\ (forall f, type f = "boolean" ->
                coerce f = JS.PBool (String.eqb (value f) "true"))
  /\ (forall f, type f = "null" -> coerce f = JS.PNull)
  /\ (forall f, type f <> "number" -> type f <> "boolean" -> type f <> "null" ->
                coerce f = JS.PString (value f))
  /\ (forall fs props,
        exists props',
          assignFields fs (JS.VObject props) = inr (JS.VObject props')
          /\ forall name,
               name <> "__proto__" ->
               JS.lookup name props'
               = match lastAssigned name fs with
                 | Some f => Some (JS.VPrim (coerce f))
                 | None => JS.lookup name props
                 end)
  /\ (forall name fs f,
        lastAssigned name fs = Some f -> In f fs /\ key f = Some name /\ name <> "")
  /\ (forall name fs f,
        In f fs -> key f = Some name -> name <> "" -> lastAssigned name fs <> None).
Proof.
  split; [exact coerce_number |].
  split. { intros f H. unfold coerce. rewrite H. reflexivity. }
  split. { intros f H. unfold coerce. rewrite H. reflexivity. }
  split.
  { intros f Hn Hb Hz. unfold coerce.
    apply String.eqb_neq in Hn, Hb, Hz. now rewrite Hn, Hb, Hz. }
  split.
  { intros fs props.
    destruct (assignFields_object fs props) as (props' & Hassign & Hlook).
    exists props'. split; [exact Hassign | intros name _; apply Hlook]. }
  split; [exact lastAssigned_sound | exact lastAssigned_complete].
Qed.

Lemma assignFields_coerces_keyed_fields_witness :
  coerce (mkField (Some "age") "31" "number") = JS.PNumber (JS.StringToNumber "31")
  /\ coerce (mkField (Some "name") "Ann" "string") = JS.PString "Ann"
  /\ lastAssigned "age" [mkField (Some "name") "Ann" "string"; mkField (Some "age") "31" "number"]
     <> None
  /\ exists props',
       assignFields
         [mkField (Some "name") "Ann" "string"; mkField (Some "age") "31" "number"]
         (JS.VObject [("name", str "Ann"); ("age", num 30)])
       = inr (JS.VObject props')
       /\ JS.lookup "age" props' = Some (JS.VPrim (JS.PNumber (JS.StringToNumber "31"))).
Proof.
  destruct assignFields_coerces_keyed_fields as (Hnum & _ & _ & Hstr & Hmerge & _ & Hlast).
  split; [apply Hnum; reflexivity |].
  split; [apply Hstr; simpl; discriminate |].
  split.
  - apply (Hlast "age" _ (mkField (Some "age") "31" "number")).
    + right. left. reflexivity.
    + reflexivity.
    + discriminate.
  - destruct (Hmerge [mkField (Some "name") "Ann" "string"; mkField (Some "age") "31" "number"]
                [("name", str "Ann"); ("age", num 30)]) as (props' & Hassign & Hlook).
    exists props'. split; [exact Hassign |].
    rewrite (Hlook "age"); [reflexivity | discriminate].
Defined.

(** C7 (as stated) fails on the code: a field whose key is the empty string
    has a key that is not null, and it is not assigned. *)
Lemma assignFields_counterexample :
  key (mkField (Some "") "5" "number") <> None
  /\ assignFields [mkField (Some "") "5" "number"] (JS.VObject [("", num 1)])
     = inr (JS.VObject [("", num 1)])
  /\ applyEdits
       {| text := [mkRow (Some "") (JS.PNumber (JS.of_Z 1)) "number";
                   mkRow (Some "a") (JS.PNumber (JS.of_Z 2)) "number"];
          path := Some [] |}
       [mkField (Some "") "5" "number"; mkField (Some "a") "2" "number"]
       (JS.VObject [("", num 1); ("a", num 2)])
     = inr (JS.VObject [("", num 1); ("a", num 2)]).
Proof.
  split; [discriminate |]. split; vm_compute; reflexivity.
Qed.

(** * The session *)

Section Properties.

Context {FileFormat : Type}.
Variable contentToJson : string -> FileFormat -> JS.result JS.value.
Variable jsonToContent : option string -> FileFormat -> JS.result string.

Local Abbreviation save := (handleSave contentToJson jsonToContent).
Local Abbreviation go := (run contentToJson jsonToContent).

Lemma applyEdits_fails (s : State FileFormat) (node : NodeData) (json : JS.value)
  (err : JS.error) :
  contentToJson (contents s) (format s) = inr json ->
  applyEdits node (fields s) json = inl err ->
  saveFails contentToJson jsonToContent node s err.
Proof.
  intros Hparse Hedit. unfold applyEdits in Hedit.
  destruct (isObjectNode node) eqn:Hobj.
  - destruct (resolve json (pathOf node)) as [e | parent] eqn:Hres; cbn [JS.bind] in Hedit.
    + injection Hedit as <-. now apply (ResolveFails _ _ _ _ _ json).
    + destruct (assignFields (fields s) parent) as [e | parent'] eqn:Hassign;
        cbn [JS.bind] in Hedit; [| discriminate Hedit].
      injection Hedit as <-. now apply (MergeFails _ _ _ _ _ json parent).
  - destruct (fields s) as [| f others] eqn:Hfields.
    + injection Hedit as <-. now apply (NoFieldFails _ _ _ _ _ json).
    + destruct (setAtPath json (pathOf node) (JS.VPrim (coerce f))) as [e | r] eqn:Hset;
        cbn [JS.bind] in Hedit; [| discriminate Hedit].
      injection Hedit as <-. now apply (SetFails _ _ _ _ _ json f others).
Qed.

Lemma saveFails_trySave (s : State FileFormat) (node : NodeData) (err : JS.error) :
  saveFails contentToJson jsonToContent node s err ->
  trySave contentToJson jsonToContent node s = inl err.
Proof.
  unfold trySave, applyEdits.
  intros [Hparse
         | json Hparse Hobj Hres
         | json parent Hparse Hobj Hres Hassign
         | json Hparse Hobj Hfields ->
         | json f others Hparse Hobj Hfields Hset
         | json json' Hparse Hedit Hprint];
    rewrite Hparse; cbn [JS.bind]; try reflexivity.
  - rewrite Hobj, Hres. reflexivity.
  - rewrite Hobj, Hres. cbn [JS.bind]. rewrite Hassign. reflexivity.
  - rewrite Hobj, Hfields. reflexivity.
  - rewrite Hobj, Hfields, Hset. reflexivity.
  - unfold applyEdits in Hedit. rewrite Hedit. cbn [JS.bind]. exact Hprint.
Qed.

Lemma handleSave_fails (s : State FileFormat) (node : NodeData) (err : JS.error) :
  nodeData s = Some node ->
  saveFails contentToJson jsonToContent node s err ->
  save s = (s, [ConsoleError err; ToastError "Failed to save changes"]).
Proof.
  intros Hnode Hfails. unfold handleSave.
  now rewrite Hnode, (saveFails_trySave s node err Hfails).
Qed.

(** C1: a commit is all or nothing. If a step of it fails (reading the
    text, resolving the path, merging the fields, writing the text), the
    state of the session, its persisted text included, is exactly what it
    was, and the failure is reported once, with its cause; otherwise every
    step has succeeded and the persisted text is the text written from the
    edited document. The persisted text changes only in the second case. *)
Theorem handleSave_all_or_nothing (s : State FileFormat) (node : NodeData) :
  nodeData s = Some node ->
  (forall err,
      saveFails contentToJson jsonToContent node s err ->
      save s = (s, [ConsoleError err; ToastError "Failed to save changes"]))
  /\ ((exists err, saveFails contentToJson jsonToContent node s err)
      \/ (exists json json' newText,
            contentToJson (contents s) (format s) = inr json
            /\ applyEdits node (fields s) json = inr json'
            /\ jsonToContent (JS.JSON_stringify json') (format s) = inr newText
            /\ save s
               = (mkState (nodeData s) newText (format s) false (fields s),
                  [ToastSuccess "Saved changes"])))
  /\ (contents (fst (save s)) <> contents s ->
      exists json json',
        contentToJson (contents s) (format s) = inr json
        /\ applyEdits node (fields s) json = inr json'
        /\ jsonToContent (JS.JSON_stringify json') (format s)
           = inr (contents (fst (save s)))).
Proof.
  intros Hnode. split; [intros err; now apply handleSave_fails |].
  assert (Hfailed : forall e, saveFails contentToJson jsonToContent node s e ->
            (exists err, saveFails contentToJson jsonToContent node s err)
            /\ contents (fst (save s)) = contents s).
  { intros e He. split; [now exists e |].
    now rewrite (handleSave_fails s node e Hnode He). }
  assert (Hstop : forall e (P Q : Prop),
            saveFails contentToJson jsonToContent node s e ->
            ((exists err, saveFails contentToJson jsonToContent node s err) \/ P)
            /\ (contents (fst (save s)) <> contents s -> Q)).
  { intros e P Q He. destruct (Hfailed e He) as [Hex Hsame].
    split; [now left | intros Hne; contradiction]. }
  destruct (contentToJson (contents s) (format s)) as [e | json] eqn:Hparse.
  { apply (Hstop e). now apply ParseFails. }
  destruct (applyEdits node (fields s) json) as [e | json'] eqn:Hedit.
  { apply (Hstop e). now apply (applyEdits_fails s node json). }
  destruct (jsonToContent (JS.JSON_stringify json') (format s)) as [e | newText] eqn:Hprint.
  { apply (Hstop e). now apply (PrintFails _ _ _ _ _ json json'). }
  assert (Hsave : save s = (mkState (nodeData s) newText (format s) false (fields s),
                            [ToastSuccess "Saved changes"])).
  { unfold handleSave, trySave. rewrite Hnode, Hparse. cbn [JS.bind].
    rewrite Hedit. cbn [JS.bind]. rewrite Hprint. reflexivity. }
  split.
  - right. exists json, json', newText. auto.
  - intros _. exists json, json'. rewrite Hsave. auto.
Qed.

(** C2: on the document [{"customer": {"name": "Ann", "age": 30}}] with the
    node selected at the path [["customer"]], editing the row of key [age]
    and type number to the text [31] and committing gives the document
    [{"customer": {"name": "Ann", "age": 31}}]: the field holds the number
    31, the field [name] is as it was, and the text written from that
    document is what is persisted. *)
Theorem handleSave_customer_age (content : string) (fmt : FileFormat) :
  contentToJson content fmt = inr (customerDoc (num 30)) ->
  fields (handleChange (JS.of_nat 1) "31" (editingSession customerNode content fmt))
  = [mkField (Some "name") "Ann" "string"; mkField (Some "age") "31" "number"]
  /\ applyEdits customerNode
       (fields (handleChange (JS.of_nat 1) "31" (editingSession customerNode content fmt)))
       (customerDoc (num 30))
     = inr (customerDoc (JS.VPrim (JS.PNumber (JS.of_Z 31))))
  /\ JS.JSON_stringify (customerDoc (num 31)) = Some (customerText "31")
  /\ forall newText,
       jsonToContent (Some (customerText "31")) fmt = inr newText ->
       save (handleChange (JS.of_nat 1) "31" (editingSession customerNode content fmt))
       = (mkState (Some customerNode) newText fmt false
            [mkField (Some "name") "Ann" "string"; mkField (Some "age") "31" "number"],
          [ToastSuccess "Saved changes"]).
Proof.
  intros Hparse.
  assert (Hedit :
    applyEdits customerNode
      [mkField (Some "name") "Ann" "string"; mkField (Some "age") "31" "number"]
      (customerDoc (num 30))
    = inr (customerDoc (num 31))) by (vm_compute; reflexivity).
  assert (Htext : JS.JSON_stringify (customerDoc (num 31)) = Some (customerText "31"))
    by (vm_compute; reflexivity).
  split; [vm_compute; reflexivity |].
  split; [exact Hedit |]. split; [exact Htext |].
  intros newText Hprint.
  unfold handleSave, trySave.
  change (nodeData (handleChange (JS.of_nat 1) "31" (editingSession customerNode content fmt)))
    with (Some customerNode).
  change (contents (handleChange (JS.of_nat 1) "31" (editingSession customerNode content fmt)))
    with content.
  change (format (handleChange (JS.of_nat 1) "31" (editingSession customerNode content fmt)))
    with fmt.
  replace (fields (handleChange (JS.of_nat 1) "31" (editingSession customerNode content fmt)))
    with [mkField (Some "name") "Ann" "string"; mkField (Some "age") "31" "number"]
    by (vm_compute; reflexivity).
  rewrite Hparse. cbn [JS.bind]. rewrite Hedit. cbn [JS.bind].
  rewrite Htext, Hprint. reflexivity.
Qed.

(** C3 (as the code has it): a field of type number whose text [Number]
    reads as [NaN] is coerced to [NaN] without any failure. Every text that
    begins with a letter other than [I] is such a text ([abc] is one); the
    empty text and a blank text are not, they read as 0. On an object target
    the merge goes through, the field is assigned [NaN] (under its key, when
    that is not [__proto__]), which is written [null], and the commit
    persists the new text when the text can be written. *)
Theorem handleSave_stores_NaN (s : State FileFormat) (node : NodeData)
  (f : Field) (name : string) :
  nodeData s = Some node ->
  type f = "number" ->
  JS.is_nan (JS.StringToNumber (value f)) = true ->
  coerce f = JS.PNumber JS.NaN
  /\ (forall indent, JS.serialize indent (JS.VPrim (JS.PNumber JS.NaN)) = "null")
  /\ (forall c rest, is_letter c = true -> c <> "I"%char ->
                     JS.StringToNumber (String c rest) = JS.NaN)
  /\ (forall t, all_chars JS.is_white_space t = true ->
                JS.StringToNumber t = JS.of_Z 0)
  /\ JS.is_nan (JS.StringToNumber "") = false
  /\ forall json props,
       isObjectNode node = true ->
       contentToJson (contents s) (format s) = inr json ->
       resolve json (pathOf node) = inr (JS.VObject props) ->
       name <> "__proto__" ->
       lastAssigned name (fields s) = Some f ->
       exists props',
         applyEdits node (fields s) json
         = inr (write_back json (pathOf node) (JS.VObject props'))
         /\ JS.lookup name props' = Some (JS.VPrim (JS.PNumber JS.NaN))
         /\ forall newText,
              jsonToContent
                (JS.JSON_stringify (write_back json (pathOf node) (JS.VObject props')))
                (format s) = inr newText ->
              save s
              = (mkState (nodeData s) newText (format s) false (fields s),
                 [ToastSuccess "Saved changes"]).
Proof.
  intros Hnode Htype Hnan.
  assert (Hcoerce : coerce f = JS.PNumber JS.NaN).
  { rewrite (coerce_number f Htype). now rewrite (is_nan_eq _ Hnan). }
  split; [exact Hcoerce |]. split; [reflexivity |].
  split; [exact StringToNumber_word |].
  split; [exact StringToNumber_blank |]. split; [reflexivity |].
  intros json props Hobj Hparse Hres _ Hlast.
  destruct (assignFields_object (fields s) props) as (props' & Hassign & Hlook).
  exists props'.
  assert (Hedit : applyEdits node (fields s) json
                  = inr (write_back json (pathOf node) (JS.VObject props'))).
  { unfold applyEdits. rewrite Hobj, Hres. cbn [JS.bind]. now rewrite Hassign. }
  split; [exact Hedit |]. split.
  - rewrite Hlook, Hlast. now rewrite Hcoerce.
  - intros newText Hprint. unfold handleSave, trySave.
    rewrite Hnode, Hparse. cbn [JS.bind]. rewrite Hedit. cbn [JS.bind].
    rewrite Hprint. reflexivity.
Qed.

Lemma changeFrom_out_of_range (index : JS.number) (newText : string) (fs : list Field) :
  forall k : nat,
    (forall i, (k <= i < k + List.length fs)%nat -> JS.number_eq (JS.of_nat i) index = false) ->
    changeFrom k index newText fs = fs.
Proof.
  induction fs as [| f fs IH]; intros k Hout; simpl; [reflexivity |].
  rewrite (Hout k) by (simpl; lia).
  f_equal. apply IH. intros i Hi. apply Hout. simpl. lia.
Qed.

(** C8 (as the code has it): [handleChange] with an index that is the
    position of no row does not fail: it leaves the session as it is, and a
    commit after it is the commit of the rows as they were. *)
Theorem handleChange_out_of_range (s : State FileFormat) (index : JS.number)
  (newText : string) :
  (forall i, (i < List.length (fields s))%nat ->
             JS.number_eq (JS.of_nat i) index = false) ->
  handleChange index newText s = s
  /\ save (handleChange index newText s) = save s.
Proof.
  intros Hout.
  assert (Hsame : handleChange index newText s = s).
  { unfold handleChange. rewrite changeFrom_out_of_range.
    - now destruct s.
    - intros i Hi. apply Hout. lia. }
  split; [exact Hsame | now rewrite Hsame].
Qed.

Lemma handleSave_keeps_node (s : State FileFormat) :
  nodeData (fst (save s)) = nodeData s.
Proof.
  unfold handleSave. destruct (nodeData s) as [node |] eqn:Hnode; [| exact Hnode].
  destruct (trySave contentToJson jsonToContent node s); [exact Hnode | reflexivity].
Qed.

Lemma run_keeps_node (actions : list Action) :
  forall s : State FileFormat, nodeData (go actions s) = nodeData s.
Proof.
  induction actions as [| a actions IH]; intros s; [reflexivity |].
  unfold run in *. simpl. rewrite IH.
  destruct a; simpl; [reflexivity | reflexivity | apply handleSave_keeps_node].
Qed.



(** C10: for a scalar node at the root of the document (one row without a
    key, an empty path) a commit writes the document back without the edit:
    [setAtPath] on the empty path returns the new value and leaves the
    document alone, the returned value is dropped, and the commit persists
    the text of the parsed document and reports success. *)
Theorem handleSave_drops_root_scalar (s : State FileFormat) (node : NodeData)
  (r : NodeRow) (f : Field) (others : list Field) :
  nodeData s = Some node ->
  text node = [r] ->
  truthy (row_key r) = false ->
  path node = None \/ path node = Some [] ->
  fields s = f :: others ->
  (forall json v, setAtPath json [] v = inr (v, json))
  /\ (forall json, applyEdits node (fields s) json = inr json)
  /\ trySave contentToJson jsonToContent node s
     = (json <- contentToJson (contents s) (format s) ;;
        jsonToContent (JS.JSON_stringify json) (format s))
  /\ forall json newText,
       contentToJson (contents s) (format s) = inr json ->
       jsonToContent (JS.JSON_stringify json) (format s) = inr newText ->
       save s
       = (mkState (nodeData s) newText (format s) false (fields s),
          [ToastSuccess "Saved changes"]).
Proof.
  intros Hnode Htext Hkey Hpath Hfields.
  assert (Hedit : forall json, applyEdits node (fields s) json = inr json).
  { intros json. unfold applyEdits, isObjectNode, pathOf.
    rewrite Htext, Hfields. simpl. rewrite Hkey. simpl.
    destruct Hpath as [-> | ->]; reflexivity. }
  assert (Htry : trySave contentToJson jsonToContent node s
                 = (json <- contentToJson (contents s) (format s) ;;
                    jsonToContent (JS.JSON_stringify json) (format s))).
  { unfold trySave. destruct (contentToJson (contents s) (format s)); [reflexivity |].
    cbn [JS.bind]. now rewrite Hedit. }
  split; [reflexivity |]. split; [exact Hedit |]. split; [exact Htry |].
  intros json newText Hparse Hprint.
  unfold handleSave. rewrite Hnode, Htry, Hparse. cbn [JS.bind].
  rewrite Hprint. reflexivity.
Qed.

End Properties.

(** * The scenarios *)

Lemma handleSave_all_or_nothing_witness :
  handleSave (readTexts customerTexts) writeText (editingSession customerNode "oops" tt)
  = (editingSession customerNode "oops" tt,
     [ConsoleError (JS.Rejected "not a known text"); ToastError "Failed to save changes"]).
Proof.
  apply (proj1 (handleSave_all_or_nothing (readTexts customerTexts) writeText
                  (editingSession customerNode "oops" tt) customerNode eq_refl)).
  apply ParseFails. reflexivity.
Defined.

Lemma handleSave_customer_age_witness :
  handleSave (readTexts customerTexts) writeText
    (handleChange (JS.of_nat 1) "31" (editingSession customerNode (customerLine "30") tt))
  = (mkState (Some customerNode) (customerText "31") tt false
       [mkField (Some "name") "Ann" "string"; mkField (Some "age") "31" "number"],
     [ToastSuccess "Saved changes"]).
Proof.
  apply (proj2 (proj2 (proj2
           (handleSave_customer_age (readTexts customerTexts) writeText
              (customerLine "30") tt eq_refl)))).
  reflexivity.
Defined.

Lemma handleSave_stores_NaN_witness :
  coerce (mkField (Some "age") "abc" "number") = JS.PNumber JS.NaN
  /\ exists props',
       applyEdits customerNode
         [mkField (Some "name") "Ann" "string"; mkField (Some "age") "abc" "number"]
         (customerDoc (num 30))
       = inr (write_back (customerDoc (num 30)) [SegString "customer"] (JS.VObject props'))
       /\ JS.lookup "age" props' = Some (JS.VPrim (JS.PNumber JS.NaN)).
Proof.
  destruct (handleSave_stores_NaN (readTexts customerTexts) writeText
              (handleChange (JS.of_nat 1) "abc"
                 (editingSession customerNode (customerLine "30") tt))
              customerNode (mkField (Some "age") "abc" "number") "age"
              eq_refl eq_refl eq_refl) as (Hcoerce & _ & _ & _ & _ & Hmerge).
  split; [exact Hcoerce |].
  assert (Hname : "age" <> "__proto__") by discriminate.
  destruct (Hmerge (customerDoc (num 30)) [("name", str "Ann"); ("age", num 30)]
              eq_refl eq_refl eq_refl Hname eq_refl) as (props' & Hedit & Hlook & _).
  exists props'. split; [exact Hedit | exact Hlook].
Defined.

(** C3 (as stated) fails on the code: with the row of key [age] and type
    number edited to the text [abc], the commit reports success and the
    persisted text is replaced, [age] being written [null]. *)
Lemma handleSave_NaN_counterexample :
  handleSave (readTexts customerTexts) writeText
    (handleChange (JS.of_nat 1) "abc" (editingSession customerNode (customerLine "30") tt))
  = (mkState (Some customerNode) (customerText "null") tt false
       [mkField (Some "name") "Ann" "string"; mkField (Some "age") "abc" "number"],
     [ToastSuccess "Saved changes"])
  /\ customerText "null" <> customerLine "30".
Proof.
  split; [vm_compute; reflexivity | vm_compute; discriminate].
Qed.

Lemma handleChange_out_of_range_witness :
  handleChange (JS.of_nat 2) "x" (editingSession customerNode (customerLine "30") tt)
  = editingSession customerNode (customerLine "30") tt.
Proof.
  apply (handleChange_out_of_range (readTexts customerTexts) writeText
           (editingSession customerNode (customerLine "30") tt) (JS.of_nat 2) "x").
  intros i Hi. simpl in Hi.
  destruct i as [| [| i]]; [reflexivity | reflexivity | lia].
Defined.

(** C8 (as stated) fails on the code: [handleChange] with the index 5 on a
    session of two rows returns normally, with the session as it was, and
    the commit after it goes through and replaces the persisted text. *)
Lemma handleChange_counterexample :
  handleChange (JS.of_nat 5) "x" (editingSession customerNode (customerLine "30") tt)
  = editingSession customerNode (customerLine "30") tt
  /\ handleSave (readTexts customerTexts) writeText
       (handleChange (JS.of_nat 5) "x" (editingSession customerNode (customerLine "30") tt))
     = (mkState (Some customerNode) (customerText "30") tt false
          [mkField (Some "name") "Ann" "string"; mkField (Some "age") "30" "number"],
        [ToastSuccess "Saved changes"])
  /\ customerText "30" <> customerLine "30".
Proof.
  split; [vm_compute; reflexivity |].
  split; [vm_compute; reflexivity | vm_compute; discriminate].
Qed.



Lemma handleSave_drops_root_scalar_witness :
  handleSave (readTexts scalarTexts) writeText
    (handleChange (JS.of_nat 0) "7" (editingSession scalarNode "5" tt))
  = (mkState (Some scalarNode) "5" tt false [mkField None "7" "number"],
     [ToastSuccess "Saved changes"]).
Proof.
  apply (proj2 (proj2 (proj2
           (handleSave_drops_root_scalar (readTexts scalarTexts) writeText
              (handleChange (JS.of_nat 0) "7" (editingSession scalarNode "5" tt))
              scalarNode (mkRow None (JS.PNumber (JS.of_Z 5)) "number")
              (mkField None "7" "number") []
              eq_refl eq_refl eq_refl (or_intror eq_refl) eq_refl)))
         (num 5) "5"); reflexivity.
Defined.

(** * Positions of rows as numbers *)

Lemma digits2_size (p : positive) : digits2_pos p = Pos.size p.
Proof. induction p; simpl; congruence. Qed.

Lemma digits2_shift (p : positive) (n : positive) :
  digits2_pos (Pos.iter xO p n) = (digits2_pos p + n)%positive.
Proof.
  revert p. induction n using Pos.peano_ind; intros p.
  - simpl. lia.
  - rewrite Pos.iter_succ. simpl. rewrite IHn. lia.
Qed.

Lemma shift_injective (n : positive) (p q : positive) :
  Pos.iter xO p n = Pos.iter xO q n -> p = q.
Proof.
  induction n using Pos.peano_ind.
  - simpl. congruence.
  - rewrite !Pos.iter_succ. intros H. injection H. exact IHn.
Qed.

Lemma small_digits (p : positive) :
  (Z.pos p < 2 ^ 53)%Z -> (Z.pos (digits2_pos p) <= 53)%Z.
Proof.
  intros H. rewrite digits2_size.
  destruct (Z.le_gt_cases (Z.pos (Pos.size p)) 53) as [Hle | Hgt]; [exact Hle |].
  exfalso.
  assert (Hsize := Pos.size_le p).
  assert (Hpow : (2 ^ 54 <= 2 ^ Z.pos (Pos.size p))%Z)
    by (apply Z.pow_le_mono_r; lia).
  assert (Hz : (Z.pos (2 ^ Pos.size p) <= Z.pos p~0)%Z) by exact Hsize.
  rewrite Pos2Z.inj_pow in Hz. change (Z.pos 2) with 2%Z in Hz.
  rewrite Pos2Z.inj_xO in Hz. lia.
Qed.

(** The number of a positive integer below [2 ^ 53] is the integer itself,
    its binary digits shifted to the left to fill the mantissa. *)
Lemma of_Z_small (p : positive) :
  (Z.pos p < 2 ^ 53)%Z ->
  JS.of_Z (Z.pos p)
  = S754_finite false
      (fst (shl_align p 0 (Z.pos (digits2_pos p) - 53)))
      (Z.pos (digits2_pos p) - 53).
Proof.
  intros Hsmall. assert (Hd := small_digits p Hsmall).
  assert (Hd1 : (1 <= Z.pos (digits2_pos p))%Z) by lia.
  unfold JS.of_Z, binary_normalize, binary_round.
  assert (Hfexp : fexp JS.prec JS.emax (Z.pos (digits2_pos p) + 0)
                  = (Z.pos (digits2_pos p) - 53)%Z).
  { unfold fexp, emin, JS.prec, JS.emax. lia. }
  rewrite Hfexp.
  destruct (shl_align p 0 (Z.pos (digits2_pos p) - 53)) as [mz ez] eqn:Halign.
  assert (Hmz : Z.pos (digits2_pos mz) = 53%Z /\ ez = (Z.pos (digits2_pos p) - 53)%Z).
  { unfold shl_align in Halign.
    destruct (Z.pos (digits2_pos p) - 53 - 0)%Z as [| d | d] eqn:Hdiff.
    - apply pair_equal_spec in Halign. destruct Halign as [<- <-]. lia.
    - lia.
    - apply pair_equal_spec in Halign. destruct Halign as [<- <-].
      rewrite digits2_shift, Pos2Z.inj_add. split; lia. }
  destruct Hmz as [Hdigits ->]. cbn [fst].
  unfold binary_round_aux, shr_fexp.
  assert (Hzero : (fexp JS.prec JS.emax
                     (Zdigits2 (Z.pos mz) + (Z.pos (digits2_pos p) - 53))
                   - (Z.pos (digits2_pos p) - 53) = 0)%Z).
  { cbn [Zdigits2]. rewrite Hdigits. unfold fexp, emin, JS.prec, JS.emax. lia. }
  rewrite Hzero. cbn [shr shr_record_of_loc shr_m loc_of_shr_record round_nearest_even].
  rewrite Hzero. cbn [shr shr_record_of_loc shr_m].
  replace (Z.pos (digits2_pos p) - 53 <=? JS.emax - JS.prec)%Z with true; [reflexivity |].
  symmetry. apply Z.leb_le. unfold JS.emax, JS.prec. lia.
Qed.

Lemma number_eq_finite (s : bool) (m1 m2 : positive) (e1 e2 : Z) :
  JS.number_eq (S754_finite s m1 e1) (S754_finite s m2 e2) = true ->
  m1 = m2 /\ e1 = e2.
Proof.
  unfold JS.number_eq, SFeqb, SFcompare.
  change (Pos.compare_cont Eq m1 m2) with (Pos.compare m1 m2).
  destruct (Z.compare_spec e1 e2) as [He | He | He];
    destruct (Pos.compare_spec m1 m2) as [Hm | Hm | Hm];
    destruct s; simpl; try discriminate; auto.
Qed.

(** Below [2 ^ 53] two positions are the same number only when they are
    the same position. *)
Lemma of_nat_eq (i j : nat) :
  (Z.of_nat i < 2 ^ 53)%Z -> (Z.of_nat j < 2 ^ 53)%Z ->
  JS.number_eq (JS.of_nat j) (JS.of_nat i) = Nat.eqb j i.
Proof.
  intros Hi Hj. destruct (Nat.eqb j i) eqn:E.
  - apply Nat.eqb_eq in E. subst j. unfold JS.of_nat.
    destruct (Z.of_nat i) as [| p | p] eqn:Hp; [reflexivity | | lia].
    rewrite (of_Z_small p Hi). unfold JS.number_eq, SFeqb, SFcompare.
    rewrite Z.compare_refl. change (Pos.compare_cont Eq ?a ?b) with (Pos.compare a b).
    now rewrite Pos.compare_refl.
  - apply Nat.eqb_neq in E. unfold JS.of_nat.
    destruct (Z.of_nat i) as [| p | p] eqn:Hp; [| | lia];
      destruct (Z.of_nat j) as [| q | q] eqn:Hq; try lia;
      rewrite ?(of_Z_small p Hi), ?(of_Z_small q Hj); try reflexivity.
    destruct (JS.number_eq _ _) eqn:Heq; [| reflexivity]. exfalso.
    apply number_eq_finite in Heq. destruct Heq as [Hm He].
    assert (Hdig : digits2_pos q = digits2_pos p) by lia.
    rewrite Hdig in Hm. unfold shl_align in Hm.
    destruct (Z.pos (digits2_pos p) - 53 - 0)%Z; cbn [fst] in Hm;
      try apply shift_injective in Hm; subst; lia.
Qed.

Lemma number_eq_finite_l (s : bool) (m : positive) (e : Z) (y : JS.number) :
  JS.number_eq (S754_finite s m e) y = true -> y = S754_finite s m e.
Proof.
  destruct y as [s' | s' | | s' m' e'].
  - destruct s; discriminate.
  - destruct s, s'; discriminate.
  - discriminate.
  - destruct (Bool.bool_dec s s') as [<- | Hs].
    + intros H. apply number_eq_finite in H. destruct H as [-> ->]. reflexivity.
    + destruct s, s'; try contradiction; discriminate.
Qed.

(** Two numbers equal to a third are equal to each other. *)
Lemma number_eq_common (x a b : JS.number) :
  JS.number_eq x a = true -> JS.number_eq x b = true -> JS.number_eq a b = true.
Proof.
  destruct x as [s | s | | s m e].
  - destruct a as [sa | sa | | sa ma ea], b as [sb | sb | | sb mb eb];
      try reflexivity; try discriminate;
      try (destruct sa; discriminate); try (destruct sb; discriminate).
  - destruct a as [sa | sa | | sa ma ea], b as [sb | sb | | sb mb eb];
      try discriminate;
      try (destruct s; discriminate);
      try (destruct s, sa; discriminate); try (destruct s, sb; discriminate).
    destruct s, sa, sb; try discriminate; reflexivity.
  - discriminate.
  - intros Ha Hb. apply number_eq_finite_l in Ha, Hb. subst.
    unfold JS.number_eq, SFeqb, SFcompare. rewrite Z.compare_refl.
    change (Pos.compare_cont Eq m m) with (Pos.compare m m).
    rewrite Pos.compare_refl. now destruct s.
Qed.

(** * Changing a field *)

Lemma changeFrom_sets (fs : list Field) :
  forall (k i : nat) (f : Field) (newText : string),
    nth_error fs i = Some f ->
    (Z.of_nat (k + List.length fs) <= 2 ^ 53)%Z ->
    changeFrom k (JS.of_nat (k + i)) newText fs
    = (firstn i fs ++ retext newText f :: skipn (S i) fs)%list.
Proof.
  induction fs as [| g fs IH]; intros k i f newText Hnth Hlen.
  - destruct i; discriminate Hnth.
  - assert (Hi : (i < List.length (g :: fs))%nat)
      by (apply nth_error_Some; congruence).
    cbn [List.length] in Hlen, Hi. cbn [changeFrom].
    rewrite of_nat_eq by lia.
    destruct i as [| i].
    + injection Hnth as ->. rewrite Nat.add_0_r, Nat.eqb_refl. cbn [firstn skipn app].
      f_equal. apply changeFrom_out_of_range.
      intros j Hj. rewrite of_nat_eq by lia. apply Nat.eqb_neq. lia.
    + replace (Nat.eqb k (k + S i)) with false by (symmetry; apply Nat.eqb_neq; lia).
      cbn [firstn skipn app]. f_equal.
      replace (k + S i)%nat with (S k + i)%nat by lia.
      apply IH; [exact Hnth | lia].
Qed.

Lemma changeFrom_keeps (fs : list Field) :
  forall (k : nat) (index : JS.number) (newText : string),
    map key (changeFrom k index newText fs) = map key fs
    /\ map type (changeFrom k index newText fs) = map type fs
    /\ Forall2 (fun old new => new = old \/ new = retext newText old)
         fs (changeFrom k index newText fs).
Proof.
  induction fs as [| f fs IH]; intros k index newText; cbn [changeFrom map].
  - repeat split; constructor.
  - destruct (IH (S k) index newText) as (Hk & Ht & Hv).
    rewrite Hk, Ht.
    destruct (JS.number_eq (JS.of_nat k) index); cbn [key type];
      repeat split; constructor; auto.
Qed.

Lemma changeFrom_twice (fs : list Field) :
  forall (k : nat) (index : JS.number) (a b : string),
    changeFrom k index b (changeFrom k index a fs) = changeFrom k index b fs.
Proof.
  induction fs as [| f fs IH]; intros k index a b; cbn [changeFrom]; [reflexivity |].
  rewrite IH. now destruct (JS.number_eq (JS.of_nat k) index).
Qed.

Lemma changeFrom_commute (fs : list Field) :
  forall (k : nat) (i1 i2 : JS.number) (a b : string),
    JS.number_eq i1 i2 = false ->
    changeFrom k i1 a (changeFrom k i2 b fs) = changeFrom k i2 b (changeFrom k i1 a fs).
Proof.
  induction fs as [| f fs IH]; intros k i1 i2 a b Hne; cbn [changeFrom]; [reflexivity |].
  rewrite (IH (S k) i1 i2 a b Hne).
  destruct (JS.number_eq (JS.of_nat k) i1) eqn:E1;
    destruct (JS.number_eq (JS.of_nat k) i2) eqn:E2; try reflexivity.
  rewrite (number_eq_common _ _ _ E1 E2) in Hne. discriminate Hne.
Qed.

(** * Setting a value at a path *)

Lemma Get_prim (p : JS.prim) (name : string) :
  JS.Get (JS.VPrim p) name = inl JS.TypeError
  \/ exists c, JS.Get (JS.VPrim p) name = inr (JS.VPrim c).
Proof.
  destruct p as [| | b | n | t]; simpl; auto; try (right; eexists; reflexivity).
  destruct (JS.array_index name) as [i |].
  - destruct (i <? N.of_nat (String.length t))%N; [| right; eexists; reflexivity].
    destruct (String.get (N.to_nat i) t); right; eexists; reflexivity.
  - destruct (String.eqb name "length"); right; eexists; reflexivity.
Qed.

(** Nothing can be set below a value that is not an object or an array. *)
Lemma setAlong_prim (rest : list Segment) :
  forall (p : JS.prim) (seg : Segment) (v : JS.value),
    setAlong (JS.VPrim p) seg rest v = inl JS.TypeError.
Proof.
  induction rest as [| next rest IH]; intros p seg v; [reflexivity |].
  cbn [setAlong].
  destruct (Get_prim p (property_key seg)) as [-> | [c Hc]]; [reflexivity |].
  rewrite Hc. cbn [JS.bind].
  destruct (JS.is_undefined (JS.VPrim c)); cbn [JS.Set_ JS.bind]; [reflexivity |].
  rewrite Hc. cbn [JS.bind]. now rewrite IH.
Qed.

Lemma nth_set_element (i : N) (x : JS.value) (elements : list JS.value) :
  (i <? N.of_nat (List.length (JS.set_element i x elements)))%N = true
  /\ nth (N.to_nat i) (JS.set_element i x elements) JS.undefined = x.
Proof.
  unfold JS.set_element.
  destruct (i <? N.of_nat (List.length elements))%N eqn:Hlt.
  - apply N.ltb_lt in Hlt.
    assert (Hn : (N.to_nat i < List.length elements)%nat) by lia.
    split.
    + apply N.ltb_lt. rewrite length_app, length_firstn. cbn [List.length].
      rewrite length_skipn. lia.
    + rewrite app_nth2; rewrite length_firstn; [| lia].
      replace (N.to_nat i - Nat.min (N.to_nat i) (List.length elements))%nat with 0%nat by lia.
      reflexivity.
  - apply N.ltb_ge in Hlt.
    assert (Hn : (List.length elements <= N.to_nat i)%nat) by lia.
    split.
    + apply N.ltb_lt. rewrite !length_app, repeat_length. cbn [List.length]. lia.
    + rewrite app_nth2 by lia. rewrite app_nth2; rewrite repeat_length; [| lia].
      now rewrite Nat.sub_diag.
Qed.

(** What was assigned is what is read, except for the length of an array. *)
Lemma Get_Set (cur cur' : JS.value) (name : string) (x : JS.value) :
  JS.Set_ cur name x = inr cur' ->
  name <> "length" ->
  JS.Get cur' name = inr x.
Proof.
  intros Hset Hname. apply String.eqb_neq in Hname.
  destruct cur as [p | elements named | props]; cbn [JS.Set_] in Hset.
  - discriminate Hset.
  - destruct (JS.array_index name) as [i |] eqn:Hidx.
    + injection Hset as <-. cbn [JS.Get]. rewrite Hidx.
      destruct (nth_set_element i x elements) as [-> ->]. reflexivity.
    + rewrite Hname in Hset. injection Hset as <-. cbn [JS.Get].
      rewrite Hidx, Hname. now rewrite lookup_put_same.
  - injection Hset as <-. cbn [JS.Get]. now rewrite lookup_put_same.
Qed.

(** A child that is an object or an array sits in a slot of its holder,
    and the holder shows what the child becomes. *)
Lemma Get_with_child (cur : JS.value) (name : string) (c c' : JS.value) :
  JS.Get cur name = inr c ->
  is_container c = true ->
  JS.Get (with_child cur name c') name = inr c'.
Proof.
  intros Hget Hc.
  destruct cur as [p | elements named | props].
  - destruct (Get_prim p name) as [H | [x H]]; rewrite H in Hget;
      [discriminate Hget |]. injection Hget as <-. discriminate Hc.
  - cbn [JS.Get with_child] in *.
    destruct (JS.array_index name) as [i |] eqn:Hidx.
    + destruct (i <? N.of_nat (List.length elements))%N eqn:Hlt.
      * cbn [JS.Get]. rewrite Hidx.
        destruct (nth_set_element i c' elements) as [-> ->]. reflexivity.
      * injection Hget as <-. discriminate Hc.
    + destruct (String.eqb name "length") eqn:Hlen.
      * injection Hget as <-. discriminate Hc.
      * destruct (JS.lookup name named) as [x |] eqn:Hlook.
        -- cbn [JS.Get]. rewrite Hidx, Hlen.
           rewrite lookup_replace_same by congruence. reflexivity.
        -- injection Hget as <-. discriminate Hc.
  - cbn [JS.Get with_child] in *.
    destruct (JS.lookup name props) as [x |] eqn:Hlook.
    + cbn [JS.Get]. rewrite lookup_replace_same by congruence. reflexivity.
    + injection Hget as <-. discriminate Hc.
Qed.

Lemma setAlong_container (rest : list Segment) (cur cur' : JS.value)
  (seg : Segment) (v : JS.value) :
  setAlong cur seg rest v = inr cur' -> is_container cur = true.
Proof.
  destruct cur as [p | |]; [| reflexivity | reflexivity].
  rewrite setAlong_prim. discriminate.
Qed.

Lemma last_cons {A : Type} (rest : list A) :
  forall a d : A, last (a :: rest) d = last rest a.
Proof.
  induction rest as [| b rest IH]; intros a d; [reflexivity |].
  change (last (a :: b :: rest) d) with (last (b :: rest) d).
  now rewrite !IH.
Qed.

Lemma setAlong_resolve (rest : list Segment) :
  forall (cur cur' : JS.value) (seg : Segment) (v : JS.value),
    setAlong cur seg rest v = inr cur' ->
    property_key (last rest seg) <> "length" ->
    resolve cur' (seg :: rest) = inr v.
Proof.
  induction rest as [| next rest IH]; intros cur cur' seg v Hset Hlast.
  - cbn [setAlong] in Hset. cbn [last] in Hlast. cbn [resolve].
    rewrite (Get_Set _ _ _ _ Hset Hlast). reflexivity.
  - cbn [setAlong] in Hset.
    destruct (JS.Get cur (property_key seg)) as [e | child0]; [discriminate Hset |].
    cbn [JS.bind] in Hset.
    destruct (if JS.is_undefined child0 then _ else _) as [e | cur1];
      [discriminate Hset |].
    cbn [JS.bind] in Hset.
    destruct (JS.Get cur1 (property_key seg)) as [e | child] eqn:Hchild;
      [discriminate Hset |].
    cbn [JS.bind] in Hset.
    destruct (setAlong child next rest v) as [e | child'] eqn:Halong;
      [discriminate Hset |].
    cbn [JS.bind] in Hset. injection Hset as <-.
    change (resolve (with_child cur1 (property_key seg) child') (seg :: next :: rest))
      with (c <- JS.Get (with_child cur1 (property_key seg) child') (property_key seg) ;;
            resolve c (next :: rest)).
    rewrite (Get_with_child _ _ _ child' Hchild (setAlong_container _ _ _ _ _ Halong)).
    cbn [JS.bind]. apply (IH child child' next v Halong).
    now rewrite <- (last_cons rest next seg).
Qed.

Lemma setAlong_frame (rest : list Segment) (props : list (string * JS.value))
  (seg : Segment) (v cur' : JS.value) :
  setAlong (JS.VObject props) seg rest v = inr cur' ->
  exists props',
    cur' = JS.VObject props'
    /\ forall other, property_key seg <> other ->
                     JS.lookup other props' = JS.lookup other props.
Proof.
  assert (Hstep : forall props1 next rest' r,
             (forall other, property_key seg <> other ->
                            JS.lookup other props1 = JS.lookup other props) ->
             (child <- JS.Get (JS.VObject props1) (property_key seg) ;;
              child' <- setAlong child next rest' v ;;
              inr (with_child (JS.VObject props1) (property_key seg) child')) = inr r ->
             exists props',
               r = JS.VObject props'
               /\ forall other, property_key seg <> other ->
                                JS.lookup other props' = JS.lookup other props).
  { intros props1 next rest' r Hframe1 H. cbn [JS.Get JS.bind] in H.
    destruct (setAlong _ next rest' v) as [e | child']; cbn [JS.bind] in H;
      [discriminate H |].
    injection H as <-. cbn [with_child].
    destruct (JS.lookup (property_key seg) props1).
    - eexists. split; [reflexivity |]. intros other Hne.
      rewrite lookup_replace_other by exact Hne. now apply Hframe1.
    - eexists. split; [reflexivity |]. exact Hframe1. }
  destruct rest as [| next rest]; cbn [setAlong]; intros H.
  - cbn [JS.Set_] in H. injection H as <-. eexists. split; [reflexivity |].
    intros other Hne. now apply lookup_put_other.
  - destruct (JS.Get (JS.VObject props) (property_key seg)) as [e | child0];
      [discriminate H |].
    cbn [JS.bind] in H.
    destruct (JS.is_undefined child0); cbn [JS.Set_ JS.bind] in H.
    + refine (Hstep _ next rest cur' _ H).
      intros other Hne. now apply lookup_put_other.
    + refine (Hstep props next rest cur' _ H). reflexivity.
Qed.

(** A slot that reads [undefined] in an object or an array can be assigned,
    and then holds what was assigned. *)
Lemma Set_after_undefined (cur child : JS.value) (name : string) (x : JS.value) :
  is_container cur = true ->
  JS.Get cur name = inr child ->
  JS.is_undefined child = true ->
  exists cur1, JS.Set_ cur name x = inr cur1 /\ JS.Get cur1 name = inr x.
Proof.
  intros Hcur Hget Hundef.
  destruct cur as [p | elements named | props]; [discriminate Hcur | |].
  - cbn [JS.Get JS.Set_] in *.
    destruct (JS.array_index name) as [i |] eqn:Hidx.
    + eexists. split; [reflexivity |]. cbn [JS.Get]. rewrite Hidx.
      destruct (nth_set_element i x elements) as [-> ->]. reflexivity.
    + destruct (String.eqb name "length") eqn:Hlen.
      * injection Hget as <-. discriminate Hundef.
      * eexists. split; [reflexivity |]. cbn [JS.Get]. rewrite Hidx, Hlen.
        now rewrite lookup_put_same.
  - cbn [JS.Set_]. eexists. split; [reflexivity |]. cbn [JS.Get].
    now rewrite lookup_put_same.
Qed.

Lemma Set_container (cur : JS.value) (name : string) (x : JS.value) :
  is_container cur = true ->
  name <> "length" ->
  exists cur', JS.Set_ cur name x = inr cur'.
Proof.
  intros Hcur Hname. apply String.eqb_neq in Hname.
  destruct cur as [p | elements named | props]; [discriminate Hcur | |];
    cbn [JS.Set_].
  - destruct (JS.array_index name); [eexists; reflexivity |].
    rewrite Hname. eexists; reflexivity.
  - eexists; reflexivity.
Qed.

(** Where the way is clear, [setAlong] goes through. *)
Lemma setAlong_succeeds (rest : list Segment) :
  forall (cur : JS.value) (seg : Segment) (v : JS.value),
    clear_way cur seg rest = true ->
    property_key (last rest seg) <> "length" ->
    exists cur', setAlong cur seg rest v = inr cur'.
Proof.
  induction rest as [| next rest IH]; intros cur seg v Hway Hlast;
    cbn [clear_way] in Hway; apply andb_prop in Hway; destruct Hway as [Hcur Hway].
  - cbn [setAlong]. exact (Set_container cur _ v Hcur Hlast).
  - cbn [setAlong].
    destruct (JS.Get cur (property_key seg)) as [e | child0] eqn:Hget;
      [discriminate Hway |].
    cbn [JS.bind].
    rewrite (last_cons rest next seg) in Hlast.
    destruct (JS.is_undefined child0) eqn:Hundef.
    + set (fresh := if is_number next then JS.VArray [] [] else JS.VObject []).
      destruct (Set_after_undefined cur child0 (property_key seg) fresh Hcur Hget Hundef)
        as (cur1 & Hs & Hg).
      rewrite Hs. cbn [JS.bind]. rewrite Hg. cbn [JS.bind].
      assert (Hfresh : creatable fresh next).
      { unfold fresh. destruct (is_number next) eqn:E; [right; auto |].
        left. exists []. auto. }
      destruct (setAlong_creates rest fresh next v Hfresh) as (c & child' & -> & _).
      cbn [JS.bind]. eexists; reflexivity.
    + cbn [JS.bind]. rewrite Hget. cbn [JS.bind].
      cbn [orb] in Hway.
      destruct (IH child0 next v Hway Hlast) as [child' ->].
      cbn [JS.bind]. eexists; reflexivity.
Qed.

(** An object or an array that a segment before the last reads is entered,
    not replaced: the rest of the path is set in it, and its holder shows
    what it becomes. *)
Lemma setAlong_enters (cur child : JS.value) (seg next : Segment) (rest : list Segment)
  (v : JS.value) :
  JS.Get cur (property_key seg) = inr child ->
  is_container child = true ->
  setAlong cur seg (next :: rest) v
  = (child' <- setAlong child next rest v ;;
     inr (with_child cur (property_key seg) child')).
Proof.
  intros Hget Hchild. cbn [setAlong]. rewrite Hget. cbn [JS.bind].
  replace (JS.is_undefined child) with false by (now destruct child).
  cbn [JS.bind]. rewrite Hget. reflexivity.
Qed.

(** Where a segment before the last names nothing yet, a new container is
    made for it (an array when the next segment is a number, an object
    otherwise), the rest of the path is set in the new container, and the
    segment is assigned the outcome. *)
Lemma setAlong_makes (cur : JS.value) (seg next : Segment) (rest : list Segment)
  (v : JS.value) :
  creatable cur seg ->
  setAlong cur seg (next :: rest) v
  = (child' <- setAlong (if is_number next then JS.VArray [] [] else JS.VObject [])
                 next rest v ;;
     JS.Set_ cur (property_key seg) child').
Proof.
  intros Hcur. destruct (creatable_slot cur seg Hcur) as [Hget Hset].
  set (fresh := if is_number next then JS.VArray [] [] else JS.VObject []).
  destruct (Hset fresh) as (cur1 & Hs & Hg & Hw).
  cbn [setAlong]. rewrite Hget. cbn [JS.bind JS.is_undefined JS.undefined].
  fold fresh. rewrite Hs. cbn [JS.bind]. rewrite Hg. cbn [JS.bind].
  destruct (setAlong fresh next rest v) as [e | child']; cbn [JS.bind]; [reflexivity |].
  symmetry. apply Hw.
Qed.

(** A string, a number, a boolean or [null] read by a segment before the
    last stops [setAlong]. *)
Lemma setAlong_blocked (p1 : list Segment) :
  forall (obj : JS.value) (first : Segment) (tail : list Segment)
         (seg next : Segment) (rest : list Segment) (v : JS.value) (p : JS.prim),
    first :: tail = (p1 ++ seg :: next :: rest)%list ->
    resolve obj (p1 ++ [seg])%list = inr (JS.VPrim p) ->
    p <> JS.PUndefined ->
    setAlong obj first tail v = inl JS.TypeError.
Proof.
  induction p1 as [| s p1 IH]; intros obj first tail seg next rest v p Hpath Hres Hp.
  - cbn [app] in Hpath. injection Hpath as -> ->.
    cbn [app resolve] in Hres.
    destruct (JS.Get obj (property_key seg)) as [e | child] eqn:Hget;
      cbn [JS.bind] in Hres; [discriminate Hres |].
    injection Hres as ->.
    cbn [setAlong]. rewrite Hget. cbn [JS.bind].
    replace (JS.is_undefined (JS.VPrim p)) with false
      by (destruct p; simpl; congruence).
    cbn [JS.bind]. rewrite Hget. cbn [JS.bind]. now rewrite setAlong_prim.
  - cbn [app] in Hpath. injection Hpath as -> ->.
    change ((s :: p1) ++ [seg])%list with (s :: (p1 ++ [seg]))%list in Hres.
    cbn [resolve] in Hres.
    destruct (JS.Get obj (property_key s)) as [e | child] eqn:Hget;
      cbn [JS.bind] in Hres; [discriminate Hres |].
    assert (Hdef : JS.is_undefined child = false).
    { destruct child as [[| | | |] | |]; try reflexivity.
      destruct p1; cbn [app resolve JS.Get JS.bind] in Hres; discriminate Hres. }
    destruct (p1 ++ seg :: next :: rest)%list as [| first' tail'] eqn:Htail.
    { destruct p1; discriminate Htail. }
    cbn [setAlong]. rewrite Hget. cbn [JS.bind]. rewrite Hdef. cbn [JS.bind].
    rewrite Hget. cbn [JS.bind].
    rewrite (IH child first' tail' seg next rest v p (eq_sym Htail) Hres Hp).
    reflexivity.
Qed.

(** C4 (as the code has it): the path of a node is resolved by property
    lookup without a check of kinds. For an object node every segment is
    read, the last one too, and the value reached is the target of the
    merge; the walk fails, with a [TypeError], exactly when a segment is read
    from [undefined] or [null]; a segment missing from an object (and not
    the name of a member of [Object.prototype]) reads as [undefined], and a
    number segment reads the property of an object named by its decimal
    text. For a scalar node [setAtPath] does not fail on what is missing: on
    a path of names that are not members of the built-in prototypes it
    goes through whenever each value read before the last segment is an
    object, an array or [undefined]; it enters the objects and arrays that
    exist, creates those that are missing (an array where the next segment
    is a number, an object otherwise, filled by the rest of the path) and
    sets the value at the end. *)
Theorem resolve_by_property_lookup :
  (forall json p seg,
      resolve json (p ++ [seg])%list
      = (parent <- resolve json p ;; JS.Get parent (property_key seg)))
  /\ (forall json p e,
        resolve json p = inl e <->
        e = JS.TypeError
        /\ exists p1 seg p2,
             p = (p1 ++ seg :: p2)%list
             /\ (resolve json p1 = inr JS.undefined
                 \/ resolve json p1 = inr (JS.VPrim JS.PNull)))
  /\ (forall json p seg props,
        resolve json p = inr (JS.VObject props) ->
        JS.lookup (property_key seg) props = None ->
        object_member (property_key seg) = false ->
        resolve json (p ++ [seg])%list = inr JS.undefined)
  /\ (forall json p index props x,
        resolve json p = inr (JS.VObject props) ->
        JS.lookup (JS.NumberToString index) props = Some x ->
        resolve json (p ++ [SegNumber index])%list = inr x)
  /\ (forall props seg rest v,
        JS.lookup (property_key seg) props = None ->
        plain_path (seg :: rest) = true ->
        exists c,
          setAtPath (JS.VObject props) (seg :: rest) v
          = inr (JS.VObject (JS.put (property_key seg) c props),
                 JS.VObject (JS.put (property_key seg) c props))
          /\ resolve c rest = inr v
          /\ match rest with
             | [] => c = v
             | next :: _ =>
                 exists c0,
                   JS.Set_ (if is_number next then JS.VArray [] [] else JS.VObject [])
                     (property_key next) c0 = inr c
             end)
  /\ (forall obj seg rest v,
        clear_way obj seg rest = true ->
        plain_path (seg :: rest) = true ->
        property_key (last rest seg) <> "length" ->
        exists obj',
          setAtPath obj (seg :: rest) v = inr (obj', obj')
          /\ resolve obj' (seg :: rest) = inr v)
  /\ (forall obj child seg next rest v,
        JS.Get obj (property_key seg) = inr child ->
        is_container child = true ->
        setAtPath obj (seg :: next :: rest) v
        = (r <- setAtPath child (next :: rest) v ;;
           inr (with_child obj (property_key seg) (snd r),
                with_child obj (property_key seg) (snd r))))
  /\ (forall props seg next rest v,
        JS.lookup (property_key seg) props = None ->
        plain_path (seg :: next :: rest) = true ->
        setAtPath (JS.VObject props) (seg :: next :: rest) v
        = (r <- setAtPath (if is_number next then JS.VArray [] [] else JS.VObject [])
                  (next :: rest) v ;;
           inr (JS.VObject (JS.put (property_key seg) (snd r) props),
                JS.VObject (JS.put (property_key seg) (snd r) props)))).
Proof.
  split.
  { intros json p seg. rewrite resolve_app.
    destruct (resolve json p) as [e | parent]; simpl; [reflexivity |].
    now destruct (JS.Get parent (property_key seg)). }
  split.
  { intros json p e. split.
    - apply resolve_fails.
    - intros [-> (p1 & seg & p2 & -> & Hp1)]. rewrite resolve_app.
      destruct Hp1 as [-> | ->]; reflexivity. }
  split.
  { intros json p seg props Hp Hmiss _. rewrite resolve_app, Hp. simpl. now rewrite Hmiss. }
  split.
  { intros json p index props x Hp Hx. rewrite resolve_app, Hp. simpl. now rewrite Hx. }
  split.
  { intros props seg rest v Hnew _.
    destruct (setAlong_creates rest (JS.VObject props) seg v) as
      (c & cur' & Halong & Hset & _ & Hres & Hkind).
    { left. exists props. auto. }
    exists c. simpl in Hset. injection Hset as <-.
    split; [| split; assumption].
    unfold setAtPath. now rewrite Halong. }
  split.
  { intros obj seg rest v Hway _ Hlast.
    destruct (setAlong_succeeds rest obj seg v Hway Hlast) as [obj' Halong].
    exists obj'. split; [unfold setAtPath; now rewrite Halong |].
    exact (setAlong_resolve rest obj obj' seg v Halong Hlast). }
  split.
  { intros obj child seg next rest v Hget Hchild. unfold setAtPath.
    rewrite (setAlong_enters obj child seg next rest v Hget Hchild).
    now destruct (setAlong child next rest v). }
  intros props seg next rest v Hnew _. unfold setAtPath.
  rewrite (setAlong_makes (JS.VObject props) seg next rest v)
    by (left; exists props; auto).
  now destruct (setAlong _ next rest v).
Qed.

Lemma resolve_by_property_lookup_witness :
  resolve (customerDoc (num 30)) [SegString "customer"; SegString "city"] = inr JS.undefined
  /\ resolve (JS.VObject [("2", str "two")]) [SegNumber (JS.of_Z 2)] = inr (str "two")
  /\ (exists c,
        setAtPath (JS.VObject []) [SegString "tags"; SegNumber (JS.of_Z 0)] (str "new")
        = inr (JS.VObject (JS.put "tags" c []), JS.VObject (JS.put "tags" c []))
        /\ resolve c [SegNumber (JS.of_Z 0)] = inr (str "new")
        /\ exists c0, JS.Set_ (JS.VArray [] []) (JS.NumberToString (JS.of_Z 0)) c0 = inr c)
  /\ exists obj',
       setAtPath (customerDoc (num 30))
         [SegString "customer"; SegString "address"; SegString "city"] (str "Oslo")
       = inr (obj', obj')
       /\ resolve obj' [SegString "customer"; SegString "address"; SegString "city"]
          = inr (str "Oslo").
Proof.
  destruct resolve_by_property_lookup as (_ & _ & Hmiss & Hnum & Hcreate & Hclear & _ & _).
  split.
  - apply (Hmiss (customerDoc (num 30)) [SegString "customer"] (SegString "city")
             [("name", str "Ann"); ("age", num 30)]); reflexivity.
  - split.
    + apply (Hnum (JS.VObject [("2", str "two")]) [] (JS.of_Z 2) [("2", str "two")]);
        vm_compute; reflexivity.
    + split.
      * apply (Hcreate [] (SegString "tags") [SegNumber (JS.of_Z 0)] (str "new"));
          vm_compute; reflexivity.
      * apply (Hclear (customerDoc (num 30)) (SegString "customer")
                 [SegString "address"; SegString "city"] (str "Oslo"));
          [vm_compute; reflexivity | vm_compute; reflexivity |].
        intros E; vm_compute in E; discriminate E.
Defined.

(** C4 (as stated) fails on the code: a number segment applied to a map is
    resolved, not rejected; a path whose last segment is missing resolves
    to [undefined] without failing; and [setAtPath] creates the missing
    intermediate containers, an array where the next segment is a number. *)
Lemma resolve_counterexample :
  resolve (JS.VObject [("2", JS.VObject [("a", num 1)])]) [SegNumber (JS.of_Z 2)]
  = inr (JS.VObject [("a", num 1)])
  /\ resolve (JS.VObject [("a", num 1)]) [SegString "b"] = inr JS.undefined
  /\ setAtPath (JS.VObject []) [SegString "a"; SegNumber (JS.of_Z 1); SegString "b"] (num 7)
     = inr (JS.VObject [("a", JS.VArray [JS.undefined; JS.VObject [("b", num 7)]] [])],
            JS.VObject [("a", JS.VArray [JS.undefined; JS.VObject [("b", num 7)]] [])]).
Proof. repeat split; vm_compute; reflexivity. Qed.

(** * Writing back into the document *)

Lemma replace_same (name : string) (c : JS.value) (props : list (string * JS.value)) :
  JS.lookup name props = Some c -> JS.replace name c props = props.
Proof.
  induction props as [| [k v] props IH]; simpl; [reflexivity |].
  destruct (String.eqb k name) eqn:E.
  - intros H. injection H as ->. reflexivity.
  - intros H. now rewrite IH.
Qed.

Lemma set_element_same (i : N) (elements : list JS.value) :
  (i <? N.of_nat (List.length elements))%N = true ->
  JS.set_element i (nth (N.to_nat i) elements JS.undefined) elements = elements.
Proof.
  intros Hlt. unfold JS.set_element. rewrite Hlt. apply N.ltb_lt in Hlt.
  assert (Hn : (N.to_nat i < List.length elements)%nat) by lia.
  clear Hlt. revert elements Hn. generalize (N.to_nat i) as n.
  induction n as [| n IH]; intros [| x elements] Hn; simpl in *; try lia.
  - reflexivity.
  - f_equal. apply IH. lia.
Qed.

Lemma with_child_same (cur : JS.value) (name : string) (c : JS.value) :
  JS.Get cur name = inr c -> is_container c = true -> with_child cur name c = cur.
Proof.
  destruct cur as [p | elements named | props]; cbn [JS.Get with_child]; [reflexivity | |].
  - destruct (JS.array_index name) as [i |].
    + destruct (i <? N.of_nat (List.length elements))%N eqn:Hlt; [| reflexivity].
      intros H _. injection H as <-. now rewrite set_element_same.
    + destruct (String.eqb name "length").
      * intros H Hc. injection H as <-. discriminate Hc.
      * destruct (JS.lookup name named) as [x |] eqn:Hl; [| reflexivity].
        intros H _. injection H as <-. now rewrite replace_same.
  - destruct (JS.lookup name props) as [x |] eqn:Hl; [| reflexivity].
    intros H _. injection H as <-. now rewrite replace_same.
Qed.

(** From a value that is not an object or an array no object or array is
    reached. *)
Lemma resolve_prim (p : list Segment) :
  forall (x : JS.prim) (v : JS.value),
    resolve (JS.VPrim x) p = inr v -> is_container v = false.
Proof.
  induction p as [| seg p IH]; intros x v H; cbn [resolve] in H.
  - injection H as <-. reflexivity.
  - destruct (Get_prim x (property_key seg)) as [Hg | [c Hg]]; rewrite Hg in H;
      cbn [JS.bind] in H; [discriminate H | exact (IH c v H)].
Qed.

Lemma resolve_container (p : list Segment) (json v : JS.value) :
  resolve json p = inr v -> is_container v = true -> is_container json = true.
Proof.
  destruct json as [x | |]; [| reflexivity | reflexivity].
  intros H Hv. rewrite (resolve_prim p x v H) in Hv. discriminate Hv.
Qed.

(** Writing back what was read leaves the document as it was. *)
Lemma write_back_same (p : list Segment) :
  forall json v : JS.value,
    resolve json p = inr v -> is_container v = true -> write_back json p v = json.
Proof.
  induction p as [| seg p IH]; intros json v H Hv; cbn [resolve write_back] in *.
  - now injection H as <-.
  - destruct (JS.Get json (property_key seg)) as [e | child] eqn:Hget;
      cbn [JS.bind] in H; [discriminate H |].
    rewrite (IH child v H Hv).
    apply with_child_same; [exact Hget | exact (resolve_container p child v H Hv)].
Qed.

(** What is written back at a path is what the path then reaches. *)
Lemma resolve_write_back (p : list Segment) :
  forall json c x : JS.value,
    resolve json p = inr c -> is_container c = true ->
    resolve (write_back json p x) p = inr x.
Proof.
  induction p as [| seg p IH]; intros json c x H Hc; cbn [resolve write_back] in *.
  - reflexivity.
  - destruct (JS.Get json (property_key seg)) as [e | child] eqn:Hget;
      cbn [JS.bind] in H; [discriminate H |].
    rewrite (Get_with_child json _ child _ Hget (resolve_container p child c H Hc)).
    cbn [JS.bind]. exact (IH child c x H Hc).
Qed.

Lemma write_back_frame (props : list (string * JS.value)) (seg : Segment)
  (rest : list Segment) (x : JS.value) :
  exists props',
    write_back (JS.VObject props) (seg :: rest) x = JS.VObject props'
    /\ forall other, property_key seg <> other ->
                     JS.lookup other props' = JS.lookup other props.
Proof.
  cbn [write_back JS.Get with_child].
  destruct (JS.lookup (property_key seg) props).
  - eexists. split; [reflexivity |]. intros other Hne. now apply lookup_replace_other.
  - eexists. split; [reflexivity |]. reflexivity.
Qed.

(** * Assigning into what is not an object *)

Lemma assignFields_unkeyed (fs : list Field) (parent : JS.value) :
  Forall (fun f => truthy (key f) = false) fs -> assignFields fs parent = inr parent.
Proof.
  induction 1 as [| f fs Hf _ IH]; cbn [assignFields]; [reflexivity |].
  rewrite Hf. now destruct (key f).
Qed.

Lemma assignFields_prim (fs : list Field) (p : JS.prim) :
  Exists (fun f => truthy (key f) = true) fs ->
  assignFields fs (JS.VPrim p) = inl JS.TypeError.
Proof.
  induction fs as [| f fs IH]; intros H; [inversion H |].
  cbn [assignFields].
  destruct (key f) as [name |] eqn:Hkey.
  - destruct (truthy (Some name)) eqn:Ht; [reflexivity |].
    apply IH. inversion H as [? ? Hf | ? ? Hrest]; subst; [| exact Hrest].
    rewrite Hkey in Hf. congruence.
  - apply IH. inversion H as [? ? Hf | ? ? Hrest]; subst; [| exact Hrest].
    rewrite Hkey in Hf. discriminate Hf.
Qed.

(** * More on the text shown for a node and for its path *)

Lemma collectRows_lookup (rows : list NodeRow) :
  forall (obj : list (string * JS.value)) (name : string),
    JS.lookup name (collectRows rows obj)
    = match lastShown name rows with
      | Some r => Some (JS.VPrim (row_value r))
      | None => JS.lookup name obj
      end.
Proof.
  induction rows as [| row rows IH]; intros obj name; [reflexivity |].
  cbn [collectRows lastShown]. rewrite IH.
  destruct (lastShown name rows); [reflexivity |].
  unfold shown, rowName.
  destruct (is_scalar_type (row_type row)); cbn [andb]; [| reflexivity].
  destruct (row_key row) as [k |]; [| reflexivity].
  destruct (truthy (Some k)); cbn [andb]; [| reflexivity].
  destruct (String.eqb k name) eqn:E.
  - apply String.eqb_eq in E. subst. apply lookup_put_same.
  - apply String.eqb_neq in E. now apply lookup_put_other.
Qed.

Lemma lastShown_sound (name : string) (rows : list NodeRow) (r : NodeRow) :
  lastShown name rows = Some r ->
  In r rows /\ row_key r = Some name /\ name <> ""
  /\ row_type r <> "array" /\ row_type r <> "object".
Proof.
  induction rows as [| row rows IH]; cbn [lastShown]; [discriminate |].
  destruct (lastShown name rows) as [r' |].
  - intros H. injection H as <-. destruct (IH eq_refl) as (Hin & H'). split; [now right | exact H'].
  - destruct (shown row && String.eqb (rowName row) name) eqn:E; [| discriminate].
    intros H. injection H as <-. apply andb_prop in E. destruct E as [Hs Hn].
    apply String.eqb_eq in Hn. unfold shown in Hs. apply andb_prop in Hs.
    destruct Hs as [Hscalar Htruthy]. unfold rowName in Hn.
    destruct (row_key row) as [k |]; [| discriminate Htruthy]. subst k.
    split; [now left |]. split; [reflexivity |].
    split; [intros ->; discriminate Htruthy |].
    unfold is_scalar_type in Hscalar. apply andb_prop in Hscalar.
    destruct Hscalar as [Ha Ho].
    split; intros Ht; rewrite Ht in *; discriminate.
Qed.

Lemma collectRows_nothing (rows : list NodeRow) (obj : list (string * JS.value)) :
  Forall (fun r => shown r = false) rows -> collectRows rows obj = obj.
Proof.
  induction 1 as [| r rows Hr _ IH]; cbn [collectRows]; [reflexivity |].
  rewrite <- IH at 2. f_equal. unfold shown in Hr.
  destruct (is_scalar_type (row_type r)); [| reflexivity].
  cbn [andb] in Hr. rewrite Hr. now destruct (row_key r).
Qed.

Lemma append_nil_r (s : string) : s ++ "" = s.
Proof. induction s as [| c s IH]; simpl; [reflexivity | now rewrite IH]. Qed.

Lemma concat_cons (x : string) (l : list string) :
  String.concat "" (x :: l) = x ++ String.concat "" l.
Proof. destruct l; simpl; [now rewrite append_nil_r | reflexivity]. Qed.

Lemma concat_app (l1 l2 : list string) :
  String.concat "" (l1 ++ l2)%list = String.concat "" l1 ++ String.concat "" l2.
Proof.
  induction l1 as [| x l1 IH]; [reflexivity |].
  change ((x :: l1) ++ l2)%list with (x :: (l1 ++ l2)%list).
  now rewrite !concat_cons, IH, append_assoc.
Qed.

Lemma jsonPathToString_brackets (p : list Segment) :
  jsonPathToString (Some p) = "$" ++ String.concat "" (map bracketed p).
Proof.
  destruct p as [| seg p]; [reflexivity |].
  unfold jsonPathToString. rewrite concat_brackets by discriminate.
  rewrite map_map. f_equal. f_equal. apply map_ext. intros s.
  symmetry. apply bracketed_text.
Qed.

(** X17: the text of a path is the text of any prefix of it followed by the
    brackets of the segments that come after. *)
Theorem jsonPathToString_app (p q : list Segment) :
  jsonPathToString (Some (p ++ q)%list)
  = jsonPathToString (Some p) ++ String.concat "" (map bracketed q).
Proof.
  rewrite !jsonPathToString_brackets, map_app, concat_app.
  now rewrite append_assoc.
Qed.

(** X14: in the object that [normalizeNodeData] writes, a name other than
    [__proto__] holds the value of the last row shown under it, and a row
    is shown only when it has a non-empty key and is neither an array nor
    an object: rows of containers and rows without key never appear. *)
Theorem collectRows_last_row_wins :
  (forall rows name,
      name <> "__proto__" ->
      JS.lookup name (collectRows rows [])
      = match lastShown name rows with
        | Some r => Some (JS.VPrim (row_value r))
        | None => None
        end)
  /\ (forall rows name r,
        lastShown name rows = Some r ->
        In r rows /\ row_key r = Some name /\ name <> ""
        /\ row_type r <> "array" /\ row_type r <> "object")
  /\ (forall rows name,
        (forall r, In r rows -> row_key r = Some name ->
                   row_type r = "array" \/ row_type r = "object") ->
        JS.lookup name (collectRows rows []) = None).
Proof.
  split; [intros rows name _; apply collectRows_lookup |].
  split; [intros rows name r; apply lastShown_sound |].
  intros rows name Hall. rewrite collectRows_lookup.
  destruct (lastShown name rows) as [r |] eqn:E; [| reflexivity].
  destruct (lastShown_sound _ _ _ E) as (Hin & Hk & _ & Ha & Ho).
  destruct (Hall r Hin Hk); contradiction.
Qed.

Lemma collectRows_last_row_wins_witness :
  JS.lookup "tags"
    (collectRows [ mkRow (Some "name") (JS.PString "Ann") "string";
                   mkRow (Some "tags") JS.PUndefined "array" ] []) = None
  /\ JS.lookup "name"
       (collectRows [ mkRow (Some "name") (JS.PString "Ann") "string";
                      mkRow (Some "name") (JS.PString "Bob") "string" ] [])
     = Some (str "Bob").
Proof.
  destruct collectRows_last_row_wins as (Hlast & _ & Hnone).
  split.
  - apply Hnone.
    intros r [<- | [<- | []]]; simpl; intros H; [discriminate H | now left].
  - rewrite (Hlast _ "name"); [reflexivity | discriminate].
Defined.

(** X15: a node all of whose rows are arrays or objects (two rows or more,
    or one row with a key) is shown as the text [{}]. *)
Theorem normalizeNodeData_containers_only (r : NodeRow) (rows : list NodeRow) :
  rows <> [] \/ truthy (row_key r) = true ->
  Forall (fun row => is_scalar_type (row_type row) = false) (r :: rows) ->
  normalizeNodeData (r :: rows) = "{}".
Proof.
  intros Hshape Hall.
  assert (Hobj : normalizeNodeData (r :: rows)
                 = JS.serialize "" (JS.VObject (collectRows (r :: rows) []))).
  { unfold normalizeNodeData. destruct Hshape as [Hrows | Hkey].
    - destruct rows; [contradiction | reflexivity].
    - rewrite Hkey. cbn [negb]. now rewrite Bool.andb_false_r. }
  rewrite Hobj, collectRows_nothing; [reflexivity |].
  apply (Forall_impl _ (P := fun row => is_scalar_type (row_type row) = false)); [| exact Hall].
  intros row Hrow. unfold shown. now rewrite Hrow.
Qed.

Lemma normalizeNodeData_containers_only_witness :
  normalizeNodeData [ mkRow (Some "address") JS.PUndefined "object";
                      mkRow (Some "tags") JS.PUndefined "array" ] = "{}".
Proof.
  apply normalizeNodeData_containers_only.
  - left. discriminate.
  - repeat constructor.
Defined.

(** X16: coercion undoes projection on rows whose value has the type the
    row declares: the field projected from a string, boolean or null row is
    coerced back to the value of the row, and so is the field of a number
    row whenever the text of the number reads back as the number. *)
Theorem coerce_fieldOfRow (r : NodeRow) :
  (exists t, row_type r = "string" /\ row_value r = JS.PString t)
  \/ (exists b, row_type r = "boolean" /\ row_value r = JS.PBool b)
  \/ (row_type r = "null" /\ row_value r = JS.PNull)
  \/ (exists n, row_type r = "number" /\ row_value r = JS.PNumber n
                /\ JS.StringToNumber (JS.NumberToString n) = n) ->
  coerce (fieldOfRow r) = row_value r.
Proof.
  unfold coerce, fieldOfRow. cbn [type value].
  intros [(t & -> & ->) | [(b & -> & ->) | [(-> & ->) | (n & -> & -> & Hn)]]];
    cbn [String.eqb Ascii.eqb Bool.eqb JS.prim_to_string].
  - reflexivity.
  - destruct b; reflexivity.
  - reflexivity.
  - now rewrite Hn.
Qed.

Lemma coerce_fieldOfRow_witness :
  coerce (fieldOfRow (mkRow (Some "age") (JS.PNumber (JS.of_Z 30)) "number"))
  = JS.PNumber (JS.of_Z 30).
Proof.
  apply (coerce_fieldOfRow (mkRow (Some "age") (JS.PNumber (JS.of_Z 30)) "number")).
  right. right. right. exists (JS.of_Z 30).
  split; [reflexivity |]. split; [reflexivity |]. vm_compute. reflexivity.
Defined.

(** * More on changing fields and on [setAtPath] *)

(** X1: for a position [i] of the row list (of at most [2 ^ 53] rows),
    [handleChange] replaces the text of the row at [i], keeps its key and
    type, and leaves every other row and the rest of the session as they
    were. *)
Theorem handleChange_sets_row {FileFormat : Type} (s : State FileFormat)
  (i : nat) (f : Field) (newText : string) :
  nth_error (fields s) i = Some f ->
  (Z.of_nat (List.length (fields s)) <= 2 ^ 53)%Z ->
  handleChange (JS.of_nat i) newText s
  = mkState (nodeData s) (contents s) (format s) (editing s)
      (firstn i (fields s) ++ retext newText f :: skipn (S i) (fields s))%list.
Proof.
  intros Hnth Hlen. unfold handleChange. f_equal.
  exact (changeFrom_sets (fields s) 0 i f newText Hnth Hlen).
Qed.

Lemma handleChange_sets_row_witness :
  handleChange (JS.of_nat 1) "31" (editingSession customerNode (customerLine "30") tt)
  = mkState (Some customerNode) (customerLine "30") tt true
      [mkField (Some "name") "Ann" "string"; mkField (Some "age") "31" "number"].
Proof.
  apply (handleChange_sets_row (editingSession customerNode (customerLine "30") tt)
           1 (mkField (Some "age") "30" "number") "31").
  - reflexivity.
  - simpl. lia.
Defined.

(** X2: whatever the index, [handleChange] keeps the number of rows, their
    keys and their types, and each row is either as it was or as it was
    with the new text. *)
Theorem handleChange_keeps_rows {FileFormat : Type} (s : State FileFormat)
  (index : JS.number) (newText : string) :
  map key (fields (handleChange index newText s)) = map key (fields s)
  /\ map type (fields (handleChange index newText s)) = map type (fields s)
  /\ List.length (fields (handleChange index newText s)) = List.length (fields s)
  /\ Forall2 (fun old new => new = old \/ new = retext newText old)
       (fields s) (fields (handleChange index newText s)).
Proof.
  destruct (changeFrom_keeps (fields s) 0 index newText) as (Hk & Ht & Hv).
  cbn [handleChange fields]. repeat split; try assumption.
  rewrite <- (length_map key), Hk. apply length_map.
Qed.

(** X3: a second change at the same index replaces the first, and changes
    at indices that are different numbers can be made in either order. *)
Theorem handleChange_composes {FileFormat : Type} (s : State FileFormat) :
  (forall index a b,
      handleChange index b (handleChange index a s) = handleChange index b s)
  /\ (forall i1 i2 a b,
        JS.number_eq i1 i2 = false ->
        handleChange i1 a (handleChange i2 b s)
        = handleChange i2 b (handleChange i1 a s)).
Proof.
  split.
  - intros index a b. unfold handleChange. cbn [fields nodeData contents format editing].
    now rewrite changeFrom_twice.
  - intros i1 i2 a b Hne. unfold handleChange.
    cbn [fields nodeData contents format editing].
    now rewrite (changeFrom_commute (fields s) 0 i1 i2 a b Hne).
Qed.

Lemma handleChange_composes_witness :
  handleChange (JS.of_nat 0) "Bob"
    (handleChange (JS.of_nat 1) "31" (editingSession customerNode (customerLine "30") tt))
  = handleChange (JS.of_nat 1) "31"
      (handleChange (JS.of_nat 0) "Bob" (editingSession customerNode (customerLine "30") tt)).
Proof.
  apply (proj2 (handleChange_composes (editingSession customerNode (customerLine "30") tt))).
  reflexivity.
Defined.

(** X5: after a call of [setAtPath] that returns, on a path that is not
    empty, does not end in the name [length] and names no member of the
    built-in prototypes ([__proto__] among them), the value returned is the
    object itself and reading the path in it gives the value that was set. *)
Theorem setAtPath_then_resolve (obj : JS.value) (seg : Segment) (rest : list Segment)
  (v r obj' : JS.value) :
  setAtPath obj (seg :: rest) v = inr (r, obj') ->
  property_key (last rest seg) <> "length" ->
  plain_path (seg :: rest) = true ->
  r = obj' /\ resolve obj' (seg :: rest) = inr v.
Proof.
  unfold setAtPath. intros H Hlast _.
  destruct (setAlong obj seg rest v) as [e | cur'] eqn:Halong; cbn [JS.bind] in H;
    [discriminate H |].
  injection H as <- <-. split; [reflexivity |].
  exact (setAlong_resolve rest obj cur' seg v Halong Hlast).
Qed.

Lemma setAtPath_then_resolve_witness :
  resolve (customerDoc (str "thirty")) [SegString "customer"; SegString "age"]
  = inr (str "thirty").
Proof.
  apply (setAtPath_then_resolve (customerDoc (num 30)) (SegString "customer")
           [SegString "age"] (str "thirty")
           (customerDoc (str "thirty")) (customerDoc (str "thirty"))).
  - reflexivity.
  - simpl. discriminate.
  - reflexivity.
Defined.

(** X6: a call of [setAtPath] on an object leaves an object, in which every
    property other than the one named by the first segment holds what it
    held. *)
Theorem setAtPath_keeps_siblings (props : list (string * JS.value)) (seg : Segment)
  (rest : list Segment) (v r obj' : JS.value) :
  setAtPath (JS.VObject props) (seg :: rest) v = inr (r, obj') ->
  exists props',
    obj' = JS.VObject props'
    /\ forall other, property_key seg <> other ->
                     JS.lookup other props' = JS.lookup other props.
Proof.
  unfold setAtPath. intros H.
  destruct (setAlong (JS.VObject props) seg rest v) as [e | cur'] eqn:Halong;
    cbn [JS.bind] in H; [discriminate H |].
  injection H as _ <-. exact (setAlong_frame rest props seg v cur' Halong).
Qed.

Lemma setAtPath_keeps_siblings_witness :
  exists props',
    JS.VObject [("a", num 1); ("b", JS.VObject [("c", num 3)])] = JS.VObject props'
    /\ forall other, "b" <> other ->
                     JS.lookup other props'
                     = JS.lookup other [("a", num 1); ("b", JS.VObject [("c", num 2)])].
Proof.
  apply (setAtPath_keeps_siblings [("a", num 1); ("b", JS.VObject [("c", num 2)])]
           (SegString "b") [SegString "c"] (num 3)
           (JS.VObject [("a", num 1); ("b", JS.VObject [("c", num 3)])])).
  reflexivity.
Defined.

(** X7: [setAtPath] never goes through or replaces a value that is not an
    object or an array: on a root that is none, and on a path one of whose
    segments before the last (the first or a later one) reads a string, a
    number, a boolean or [null], it throws a [TypeError]. The segments are
    not names of members of the built-in prototypes, which a string, a
    number or a boolean would read as a function. *)
Theorem setAtPath_blocked (v : JS.value) :
  (forall p seg rest,
      plain_path (seg :: rest) = true ->
      setAtPath (JS.VPrim p) (seg :: rest) v = inl JS.TypeError)
  /\ (forall obj before seg next rest p,
        plain_path (before ++ seg :: next :: rest) = true ->
        resolve obj (before ++ [seg])%list = inr (JS.VPrim p) ->
        p <> JS.PUndefined ->
        setAtPath obj (before ++ seg :: next :: rest) v = inl JS.TypeError).
Proof.
  split.
  - intros p seg rest _. unfold setAtPath. now rewrite setAlong_prim.
  - intros obj before seg next rest p _ Hres Hp. unfold setAtPath.
    destruct (before ++ seg :: next :: rest)%list as [| first tail] eqn:Hpath.
    { destruct before; discriminate Hpath. }
    now rewrite (setAlong_blocked before obj first tail seg next rest v p
                   (eq_sym Hpath) Hres Hp).
Qed.

Lemma setAtPath_blocked_witness :
  setAtPath (customerDoc (num 30))
    [SegString "customer"; SegString "age"; SegString "unit"] (str "years")
  = inl JS.TypeError.
Proof.
  apply (proj2 (setAtPath_blocked (str "years"))
           (customerDoc (num 30)) [SegString "customer"] (SegString "age")
           (SegString "unit") [] (JS.PNumber (JS.of_Z 30)));
    [reflexivity | reflexivity | discriminate].
Defined.

(** * More on the commit *)

(** X8: for a scalar node with a path that is not empty (and that does not
    end in the name [length] nor names a member of the built-in
    prototypes), the document that [handleSave] hands to the writer holds,
    at the path of the node, the coerced value of the first field. *)
Theorem applyEdits_scalar_lands (node : NodeData) (f : Field) (others : list Field)
  (json json' : JS.value) (seg : Segment) (rest : list Segment) :
  isObjectNode node = false ->
  pathOf node = seg :: rest ->
  property_key (last rest seg) <> "length" ->
  plain_path (seg :: rest) = true ->
  applyEdits node (f :: others) json = inr json' ->
  resolve json' (pathOf node) = inr (JS.VPrim (coerce f)).
Proof.
  intros Hscalar Hpath Hlast _ Hedit. unfold applyEdits in Hedit.
  rewrite Hscalar, Hpath in Hedit. rewrite Hpath. unfold setAtPath in Hedit.
  destruct (setAlong json seg rest (JS.VPrim (coerce f))) as [e | obj'] eqn:Halong;
    cbn [JS.bind snd] in Hedit; [discriminate Hedit |].
  injection Hedit as <-.
  exact (setAlong_resolve rest json obj' seg _ Halong Hlast).
Qed.

Lemma applyEdits_scalar_lands_witness :
  resolve (customerDoc (num 31)) [SegString "customer"; SegString "age"]
  = inr (JS.VPrim (coerce (mkField None "31" "number"))).
Proof.
  apply (applyEdits_scalar_lands
           {| text := [mkRow None (JS.PNumber (JS.of_Z 30)) "number"];
              path := Some [SegString "customer"; SegString "age"] |}
           (mkField None "31" "number") [] (customerDoc (num 30)) (customerDoc (num 31))
           (SegString "customer") [SegString "age"]).
  - reflexivity.
  - reflexivity.
  - simpl. discriminate.
  - reflexivity.
  - vm_compute. reflexivity.
Defined.

(** X10: for an object node whose path reaches an object or an array, a
    commit in which no field has a non-empty key changes nothing in the
    document: the text written is the text of the document as parsed. *)
Theorem applyEdits_without_keyed_field (node : NodeData) (fs : list Field)
  (json parent : JS.value) :
  isObjectNode node = true ->
  Forall (fun f => truthy (key f) = false) fs ->
  resolve json (pathOf node) = inr parent ->
  is_container parent = true ->
  applyEdits node fs json = inr json.
Proof.
  intros Hobj Hkeys Hres Hparent. unfold applyEdits.
  rewrite Hobj, Hres. cbn [JS.bind]. rewrite (assignFields_unkeyed fs parent Hkeys).
  cbn [JS.bind]. now rewrite (write_back_same _ _ _ Hres Hparent).
Qed.

Lemma applyEdits_without_keyed_field_witness :
  applyEdits
    {| text := [ mkRow (Some "customer") JS.PUndefined "object";
                 mkRow (Some "tags") JS.PUndefined "array" ];
       path := Some [] |}
    [] (customerDoc (num 30))
  = inr (customerDoc (num 30)).
Proof.
  apply (applyEdits_without_keyed_field _ [] (customerDoc (num 30)) (customerDoc (num 30)));
    [reflexivity | constructor | reflexivity | reflexivity].
Defined.

(** X11: for an object node whose path reaches an object, the edit of
    [handleSave] succeeds, and in the document handed to the writer the
    path of the node reaches an object in which each name other than
    [__proto__] holds the coerced value of the last field assigned under
    it, or what it held before when no field is assigned under it. *)
Theorem applyEdits_object_target (node : NodeData) (fs : list Field)
  (json : JS.value) (props : list (string * JS.value)) :
  isObjectNode node = true ->
  resolve json (pathOf node) = inr (JS.VObject props) ->
  exists json' props',
    applyEdits node fs json = inr json'
    /\ resolve json' (pathOf node) = inr (JS.VObject props')
    /\ forall name,
         name <> "__proto__" ->
         JS.lookup name props'
         = match lastAssigned name fs with
           | Some f => Some (JS.VPrim (coerce f))
           | None => JS.lookup name props
           end.
Proof.
  intros Hobj Hres.
  destruct (assignFields_object fs props) as (props' & Hassign & Hlook).
  exists (write_back json (pathOf node) (JS.VObject props')), props'.
  split; [| split; [| intros name _; apply Hlook]].
  - unfold applyEdits. rewrite Hobj, Hres. cbn [JS.bind]. now rewrite Hassign.
  - exact (resolve_write_back _ _ _ _ Hres eq_refl).
Qed.

Lemma applyEdits_object_target_witness :
  exists json' props',
    applyEdits customerNode
      [mkField (Some "name") "Bob" "string"; mkField (Some "age") "30" "number"]
      (customerDoc (num 30)) = inr json'
    /\ resolve json' (pathOf customerNode) = inr (JS.VObject props')
    /\ forall name,
         name <> "__proto__" ->
         JS.lookup name props'
         = match lastAssigned name
                   [mkField (Some "name") "Bob" "string"; mkField (Some "age") "30" "number"] with
           | Some f => Some (JS.VPrim (coerce f))
           | None => JS.lookup name [("name", str "Ann"); ("age", num 30)]
           end.
Proof.
  apply (applyEdits_object_target customerNode _ (customerDoc (num 30))
           [("name", str "Ann"); ("age", num 30)]); reflexivity.
Defined.

(** X12: when the document is an object and the path of the node is not
    empty, the edit of [handleSave] leaves an object in which every
    top-level property other than the one named by the first segment of the
    path holds what it held. *)
Theorem applyEdits_keeps_top_level (node : NodeData) (fs : list Field)
  (props : list (string * JS.value)) (seg : Segment) (rest : list Segment)
  (json' : JS.value) :
  pathOf node = seg :: rest ->
  applyEdits node fs (JS.VObject props) = inr json' ->
  exists props',
    json' = JS.VObject props'
    /\ forall other, property_key seg <> other ->
                     JS.lookup other props' = JS.lookup other props.
Proof.
  intros Hpath Hedit. unfold applyEdits in Hedit. rewrite Hpath in Hedit.
  destruct (isObjectNode node).
  - destruct (resolve (JS.VObject props) (seg :: rest)) as [e | parent];
      cbn [JS.bind] in Hedit; [discriminate Hedit |].
    destruct (assignFields fs parent) as [e | parent']; cbn [JS.bind] in Hedit;
      [discriminate Hedit |].
    injection Hedit as <-. apply write_back_frame.
  - destruct fs as [| f others]; [discriminate Hedit |].
    unfold setAtPath in Hedit.
    destruct (setAlong (JS.VObject props) seg rest (JS.VPrim (coerce f)))
      as [e | obj'] eqn:Halong; cbn [JS.bind snd] in Hedit; [discriminate Hedit |].
    injection Hedit as <-.
    exact (setAlong_frame rest props seg _ obj' Halong).
Qed.

Lemma applyEdits_keeps_top_level_witness :
  exists props',
    JS.VObject [("customer", JS.VObject [("name", str "Ann"); ("age", num 31)]);
                ("version", num 2)] = JS.VObject props'
    /\ forall other, "customer" <> other ->
         JS.lookup other props'
         = JS.lookup other
             [("customer", JS.VObject [("name", str "Ann"); ("age", num 30)]);
              ("version", num 2)].
Proof.
  apply (applyEdits_keeps_top_level customerNode
           [mkField (Some "name") "Ann" "string"; mkField (Some "age") "31" "number"]
           [("customer", JS.VObject [("name", str "Ann"); ("age", num 30)]);
            ("version", num 2)]
           (SegString "customer") []).
  - reflexivity.
  - vm_compute. reflexivity.
Defined.

Section MoreProperties.

Context {FileFormat : Type}.
Variable contentToJson : string -> FileFormat -> JS.result JS.value.
Variable jsonToContent : option string -> FileFormat -> JS.result string.

Local Abbreviation save := (handleSave contentToJson jsonToContent).
Local Abbreviation go := (run contentToJson jsonToContent).

Lemma handleSave_keeps_fields (s : State FileFormat) :
  fields (fst (save s)) = fields s.
Proof.
  unfold handleSave. destruct (nodeData s) as [node |]; [| reflexivity].
  destruct (trySave contentToJson jsonToContent node s); reflexivity.
Qed.

Lemma run_keeps_keys (actions : list Action) :
  forall s : State FileFormat,
    map key (fields (go actions s)) = map key (fields s)
    /\ map type (fields (go actions s)) = map type (fields s).
Proof.
  induction actions as [| a actions IH]; intros s; [split; reflexivity |].
  unfold run in *. cbn [fold_left].
  destruct (IH (act contentToJson jsonToContent s a)) as [Hk Ht]. rewrite Hk, Ht.
  destruct a as [| index newText |]; cbn [act handleEdit fields].
  - split; reflexivity.
  - destruct (changeFrom_keeps (fields s) 0 index newText) as (Hk' & Ht' & _).
    cbn [handleChange fields]. now rewrite Hk', Ht'.
  - now rewrite handleSave_keeps_fields.
Qed.

(** X4: whatever the user does after a node is selected (starting to edit,
    changing fields, committing), the fields stay those of the scalar rows
    of the node: the same keys and the same types in the same order, never
    the type of an array or of an object; only texts change. *)
Theorem run_keeps_rows (node : option NodeData) (s0 : State FileFormat)
  (actions : list Action) :
  map key (fields (go actions (selectNode node s0)))
  = map row_key (filter (fun r => is_scalar_type (row_type r)) (rowsOf node))
  /\ map type (fields (go actions (selectNode node s0)))
     = map row_type (filter (fun r => is_scalar_type (row_type r)) (rowsOf node))
  /\ Forall (fun f => is_scalar_type (type f) = true)
       (fields (go actions (selectNode node s0))).
Proof.
  destruct (run_keeps_keys actions (selectNode node s0)) as [Hk Ht].
  assert (Hk0 : map key (fields (selectNode node s0))
                = map row_key (filter (fun r => is_scalar_type (row_type r)) (rowsOf node))).
  { cbn [selectNode resetEffect fields nodeData]. rewrite map_map. reflexivity. }
  assert (Ht0 : map type (fields (selectNode node s0))
                = map row_type (filter (fun r => is_scalar_type (row_type r)) (rowsOf node))).
  { cbn [selectNode resetEffect fields nodeData]. rewrite map_map. reflexivity. }
  split; [congruence |]. split; [congruence |].
  apply Forall_map with (f := type) (P := fun t => is_scalar_type t = true).
  rewrite Ht, Ht0. apply Forall_map. apply Forall_forall.
  intros r Hin. apply filter_In in Hin. exact (proj2 Hin).
Qed.

(** X9: a node that is not an object node and has no scalar row (no row at
    all, or a single row without key that is an array or an object) can
    never be committed: it has no field, and [handleSave] fails and leaves
    the session as it is, with a [TypeError] whenever the text can be
    read. *)
Theorem handleSave_without_rows (node : NodeData) (s0 : State FileFormat)
  (actions : list Action) :
  isObjectNode node = false ->
  filter (fun r => is_scalar_type (row_type r)) (text node) = [] ->
  fields (go actions (selectNode (Some node) s0)) = []
  /\ exists err,
       save (go actions (selectNode (Some node) s0))
       = (go actions (selectNode (Some node) s0),
          [ConsoleError err; ToastError "Failed to save changes"])
       /\ forall json,
            contentToJson (contents (go actions (selectNode (Some node) s0)))
              (format (go actions (selectNode (Some node) s0))) = inr json ->
            err = JS.TypeError.
Proof.
  intros Hscalar Hrows.
  set (s := go actions (selectNode (Some node) s0)).
  assert (Hfields : fields s = []).
  { destruct (run_keeps_keys actions (selectNode (Some node) s0)) as [Hk _].
    fold s in Hk. cbn [selectNode resetEffect fields nodeData rowsOf] in Hk.
    rewrite Hrows in Hk. now destruct (fields s). }
  assert (Hnode : nodeData s = Some node).
  { unfold s. now rewrite run_keeps_node. }
  split; [exact Hfields |].
  unfold handleSave, trySave, applyEdits. rewrite Hnode, Hscalar, Hfields.
  destruct (contentToJson (contents s) (format s)) as [e | json]; cbn [JS.bind].
  - exists e. split; [reflexivity | discriminate].
  - exists JS.TypeError. split; [reflexivity | reflexivity].
Qed.

(** X13: when the path of an object node reaches a value that is not an
    object or an array (the node is no longer in the document as it is
    parsed) and some field has a non-empty key, [handleSave] fails with a
    [TypeError] and leaves the session, its persisted text included, as it
    is. *)
Theorem handleSave_stale_target (s : State FileFormat) (node : NodeData)
  (json : JS.value) (p : JS.prim) :
  nodeData s = Some node ->
  isObjectNode node = true ->
  contentToJson (contents s) (format s) = inr json ->
  resolve json (pathOf node) = inr (JS.VPrim p) ->
  Exists (fun f => truthy (key f) = true) (fields s) ->
  save s = (s, [ConsoleError JS.TypeError; ToastError "Failed to save changes"]).
Proof.
  intros Hnode Hobj Hparse Hres Hkeyed.
  unfold handleSave, trySave, applyEdits.
  rewrite Hnode, Hparse. cbn [JS.bind]. rewrite Hobj, Hres. cbn [JS.bind].
  now rewrite (assignFields_prim (fields s) p Hkeyed).
Qed.

End MoreProperties.

Lemma run_keeps_rows_witness :
  map key
    (fields (run (readTexts customerTexts) writeText
               [Edit; Change (JS.of_nat 1) "31"; Save; Edit; Change (JS.of_nat 0) "Bob"]
               (selectNode (Some customerNode) (mkState None (customerLine "30") tt false []))))
  = [Some "name"; Some "age"].
Proof.
  apply (proj1 (run_keeps_rows (readTexts customerTexts) writeText (Some customerNode)
                  (mkState None (customerLine "30") tt false [])
                  [Edit; Change (JS.of_nat 1) "31"; Save; Edit; Change (JS.of_nat 0) "Bob"])).
Defined.

Lemma handleSave_without_rows_witness :
  exists err,
    handleSave (readTexts customerTexts) writeText
      (run (readTexts customerTexts) writeText [Edit]
         (selectNode (Some {| text := []; path := Some [SegString "customer"] |})
            (mkState None (customerLine "30") tt false [])))
    = (run (readTexts customerTexts) writeText [Edit]
         (selectNode (Some {| text := []; path := Some [SegString "customer"] |})
            (mkState None (customerLine "30") tt false [])),
       [ConsoleError err; ToastError "Failed to save changes"])
    /\ err = JS.TypeError.
Proof.
  destruct (handleSave_without_rows (readTexts customerTexts) writeText
              {| text := []; path := Some [SegString "customer"] |}
              (mkState None (customerLine "30") tt false []) [Edit]
              eq_refl eq_refl) as (_ & err & Hsave & Herr).
  exists err. split; [exact Hsave |].
  apply (Herr (customerDoc (num 30))). reflexivity.
Defined.

Lemma handleSave_stale_target_witness :
  handleSave (readTexts customerTexts) writeText
    (editingSession
       {| text := text customerNode; path := Some [SegString "client"] |}
       (customerLine "30") tt)
  = (editingSession
       {| text := text customerNode; path := Some [SegString "client"] |}
       (customerLine "30") tt,
     [ConsoleError JS.TypeError; ToastError "Failed to save changes"]).
Proof.
  apply (handleSave_stale_target (readTexts customerTexts) writeText _
           {| text := text customerNode; path := Some [SegString "client"] |}
           (customerDoc (num 30)) JS.PUndefined);
    try reflexivity.
  left. reflexivity.
Defined.

